(** * Wrapper layers of tfjs-layers: [Wrapper], [TimeDistributed], [Bidirectional]

    A shallow embedding of the source file of the wrapper layers.
    Objects are records,
    methods are computations in a state-and-exception monad over the
    receiving object, and the collaborators the file imports (the base
    class [Layer], the class registry, the recurrent helpers and the
    tensor engine) are gathered in one record, [Env]. *)

From stdpp Require Import gmap strings list fin_maps pretty.

Set Warnings "-register-all".

(** ** Exceptions and the method monad *)

(** The error classes of [errors.ts] that the file throws, and
    [TypeError], which the JavaScript runtime raises when a property of
    [undefined] is read. *)
Inductive Error :=
  | ValueError (msg : string)
  | NotImplementedError (msg : string)
  | TypeError (msg : string).

Inductive result (A : Type) :=
  | Ok (a : A)
  | Err (e : Error).
Arguments Ok {A} a.
Arguments Err {A} e.

(** A method body: it runs on the receiver's state, may change it, and
    either returns or throws.  A throw keeps the assignments made before
    it, as in JavaScript. *)
Definition M (S A : Type) : Type := S -> S * result A.

Definition ret {S A} (a : A) : M S A := fun s => (s, Ok a).

Definition bind {S A B} (m : M S A) (k : A -> M S B) : M S B :=
  fun s => match m s with
           | (s', Ok a) => k a s'
           | (s', Err e) => (s', Err e)
           end.

Definition throw {S A} (e : Error) : M S A := fun s => (s, Err e).

Definition get {S} : M S S := fun s => (s, Ok s).

Definition modify {S} (f : S -> S) : M S unit := fun s => (f s, Ok tt).

Definition gets {S A} (f : S -> A) : M S A := fun s => (s, Ok (f s)).

Definition lift {S A} (r : result A) : M S A := fun s => (s, r).

(** [xs.map(f)] with an [f] that may throw. *)
Fixpoint mapM {S A B} (f : A -> M S B) (xs : list A) : M S (list B) :=
  match xs with
  | [] => ret []
  | x :: xs' => bind (f x) (fun y => bind (mapM f xs') (fun ys => ret (y :: ys)))
  end.

(** Run a method of a component object (a field holding an object that
    may still be [undefined]) inside a method of its owner. *)
Definition zoom {S T A} (proj : S -> option T) (upd : T -> S -> S)
    (m : M T A) : M S A :=
  fun s => match proj s with
           | Some t => let (t', r) := m t in (upd t' s, r)
           | None => (s, Err (TypeError "Cannot read properties of undefined"))
           end.

Declare Scope method_scope.
Delimit Scope method_scope with method.
Notation "x <- m ;; k" := (bind m (fun x => k))
  (at level 100, m at next level, right associativity) : method_scope.
Notation "m ;; k" := (bind m (fun _ => k))
  (at level 100, right associativity) : method_scope.
Open Scope method_scope.

(** ** Shapes *)

(** One entry of a [Shape]: a number, [null] (unknown), or the
    [undefined] obtained by indexing past the end of an array. *)
Inductive Dim :=
  | DUndef
  | DNull
  | DNum (n : Z).

#[global] Instance Dim_eq_dec : EqDecision Dim.
Proof. solve_decision. Defined.

Definition Shape : Type := list Dim.

(** [Shape|Shape[]]. *)
Inductive ShapeArg :=
  | OneShape (s : Shape)
  | ManyShapes (ss : list Shape).

(** [a[i]] on a JavaScript array. *)
Definition js_index (s : Shape) (i : nat) : Dim := default DUndef (s !! i).

Definition JSON_stringify_dim (d : Dim) : string :=
  match d with
  | DNum n => pretty n
  | DNull | DUndef => "null"
  end.

(** [JSON.stringify] on an array of numbers. *)
Definition JSON_stringify (s : Shape) : string :=
  "[" +:+ String.concat "," (JSON_stringify_dim <$> s) +:+ "]".

(** ** Configuration dictionaries *)

(** The JSON-compatible values of a [serialization.ConfigDict].  [CNull]
    stands for both [null] and [undefined]. *)
Inductive ConfigValue :=
  | CNull
  | CBool (b : bool)
  | CNum (n : Z)
  | CStr (s : string)
  | CList (l : list ConfigValue)
  | CDict (d : gmap string ConfigValue).

Abbreviation ConfigDict := (gmap string ConfigValue).

(** [Object.assign(target, source)]: every key of [source] is written
    into [target], replacing what [target] held under that key. *)
Definition Object_assign {V} (target source : gmap string V) : gmap string V :=
  source ∪ target.

(** [config[key] === true]. *)
Definition config_flag (key : string) (config : ConfigDict) : bool :=
  match config !! key with
  | Some (CBool true) => true
  | _ => false
  end.

(** ** Tensors, call options and input specifications *)

(** A concrete [Tensor] or a [SymbolicTensor]; both carry a shape. *)
Inductive Tensor :=
  | Concrete (shape : Shape) (data : list Z)
  | Symbolic (shape : Shape) (name : string).

Definition tensor_shape (t : Tensor) : Shape :=
  match t with
  | Concrete s _ => s
  | Symbolic s _ => s
  end.

(** A value of type [Tensor|Tensor[]] as it exists at run time: the
    casts of the source are unchecked, so [undefined] and nested arrays
    can appear. *)
Inductive TVal :=
  | VUndef
  | VTensor (t : Tensor)
  | VList (l : list TVal).

(** [x instanceof SymbolicTensor]. *)
Definition instanceof_SymbolicTensor (v : TVal) : bool :=
  match v with
  | VTensor (Symbolic _ _) => true
  | _ => false
  end.

(** [Array.isArray(x)]. *)
Definition Array_isArray (v : TVal) : bool :=
  match v with
  | VList _ => true
  | _ => false
  end.

(** [a[i]] on an array of tensors. *)
Definition js_nth (l : list TVal) (i : nat) : TVal := default VUndef (l !! i).

(** An array object held in the call options.  Arrays are compared by
    identity in JavaScript; [arr_id] is that identity, [arr_items] the
    elements.  The arrays of this file are never updated in place. *)
Record Arr := { arr_id : positive; arr_items : list TVal }.

(** A value stored in [Kwargs].  [KNullish] is [null] or [undefined],
    which every test of the source ([== null], [!= null]) identifies. *)
Inductive KVal :=
  | KNullish
  | KBool (b : bool)
  | KTensor (t : Tensor)
  | KArray (a : Arr).

Abbreviation Kwargs := (gmap string KVal).

(** [kwargs[key]]: an absent key reads as [undefined]. *)
Definition kw_get (key : string) (kwargs : Kwargs) : KVal :=
  default KNullish (kwargs !! key).

Definition is_nullish (v : KVal) : bool :=
  match v with
  | KNullish => true
  | _ => false
  end.

(** [InputSpec]; the file builds them from a shape alone. *)
Record InputSpec := { spec_shape : option Shape; spec_ndim : option nat }.

(** Modelled from the spec: [new InputSpec({shape})]; the class is not in
    this file, and the spec has [apply] "construct a matching input
    specification" from a state's shape.  The constructor keeps the
    shape and, a shape being given, takes its rank as [ndim]; without a
    shape both stay undefined. *)
Definition new_InputSpec (shape : option Shape) : InputSpec :=
  {| spec_shape := shape;
     spec_ndim := match shape with
                  | Some s => Some (length s)
                  | None => None
                  end |}.

(** [{shape: s}], an object literal: no constructor runs, so [ndim] is
    not set. *)
Definition shape_literal (shape : Shape) : InputSpec :=
  {| spec_shape := Some shape; spec_ndim := None |}.

(** ** Objects *)

(** The state of a wrapped layer (an [RNN] for [Bidirectional]) that the
    wrappers read or write.  [l_className] is [getClassName()],
    [l_config] is [getConfig()], [l_weights] is [getWeights()]. *)
Record Layer := {
  l_name : string;
  l_className : string;
  l_config : ConfigDict;
  l_trainable : bool;
  l_built : bool;
  l_weights : list Tensor;
  l_stateSpec : list InputSpec;
  l_inputSpec : list InputSpec;
  l_stateful : bool;
  l_returnSequences : bool;
  l_returnState : bool
}.

Definition set_l_name (v : string) (l : Layer) : Layer :=
  {| l_name := v; l_className := l_className l; l_config := l_config l;
     l_trainable := l_trainable l; l_built := l_built l;
     l_weights := l_weights l; l_stateSpec := l_stateSpec l;
     l_inputSpec := l_inputSpec l; l_stateful := l_stateful l;
     l_returnSequences := l_returnSequences l;
     l_returnState := l_returnState l |}.

Definition set_l_trainable (v : bool) (l : Layer) : Layer :=
  {| l_name := l_name l; l_className := l_className l; l_config := l_config l;
     l_trainable := v; l_built := l_built l;
     l_weights := l_weights l; l_stateSpec := l_stateSpec l;
     l_inputSpec := l_inputSpec l; l_stateful := l_stateful l;
     l_returnSequences := l_returnSequences l;
     l_returnState := l_returnState l |}.

Definition set_l_built (v : bool) (l : Layer) : Layer :=
  {| l_name := l_name l; l_className := l_className l; l_config := l_config l;
     l_trainable := l_trainable l; l_built := v;
     l_weights := l_weights l; l_stateSpec := l_stateSpec l;
     l_inputSpec := l_inputSpec l; l_stateful := l_stateful l;
     l_returnSequences := l_returnSequences l;
     l_returnState := l_returnState l |}.

Definition set_l_weights (v : list Tensor) (l : Layer) : Layer :=
  {| l_name := l_name l; l_className := l_className l; l_config := l_config l;
     l_trainable := l_trainable l; l_built := l_built l;
     l_weights := v; l_stateSpec := l_stateSpec l;
     l_inputSpec := l_inputSpec l; l_stateful := l_stateful l;
     l_returnSequences := l_returnSequences l;
     l_returnState := l_returnState l |}.

Definition set_l_stateSpec (v : list InputSpec) (l : Layer) : Layer :=
  {| l_name := l_name l; l_className := l_className l; l_config := l_config l;
     l_trainable := l_trainable l; l_built := l_built l;
     l_weights := l_weights l; l_stateSpec := v;
     l_inputSpec := l_inputSpec l; l_stateful := l_stateful l;
     l_returnSequences := l_returnSequences l;
     l_returnState := l_returnState l |}.

(** The part of a wrapper object declared by [Wrapper] and inherited
    from [Layer].  [layer] is [None] until the constructor assigns it.
    [baseConfig] is the dictionary [Layer.getConfig()] returns for this
    object (name, trainable, ...). *)
Record Wrapper := {
  layer : option Layer;
  built : bool;
  inputSpec : list InputSpec;
  supportsMasking : bool;
  _stateful : bool;
  baseConfig : ConfigDict
}.

Definition set_layer (v : option Layer) (w : Wrapper) : Wrapper :=
  {| layer := v; built := built w; inputSpec := inputSpec w;
     supportsMasking := supportsMasking w; _stateful := _stateful w;
     baseConfig := baseConfig w |}.

Definition set_built (v : bool) (w : Wrapper) : Wrapper :=
  {| layer := layer w; built := v; inputSpec := inputSpec w;
     supportsMasking := supportsMasking w; _stateful := _stateful w;
     baseConfig := baseConfig w |}.

Definition set_inputSpec (v : list InputSpec) (w : Wrapper) : Wrapper :=
  {| layer := layer w; built := built w; inputSpec := v;
     supportsMasking := supportsMasking w; _stateful := _stateful w;
     baseConfig := baseConfig w |}.

Definition set_supportsMasking (v : bool) (w : Wrapper) : Wrapper :=
  {| layer := layer w; built := built w; inputSpec := inputSpec w;
     supportsMasking := v; _stateful := _stateful w;
     baseConfig := baseConfig w |}.

Definition set__stateful (v : bool) (w : Wrapper) : Wrapper :=
  {| layer := layer w; built := built w; inputSpec := inputSpec w;
     supportsMasking := supportsMasking w; _stateful := v;
     baseConfig := baseConfig w |}.

(** [TimeDistributed] declares no field of its own. *)
Abbreviation TimeDistributed := Wrapper.

(** A [Bidirectional] object: the inherited part and its private fields.
    A field that has not been assigned yet is [None] (or [false], the
    truth value of [undefined], for the flags that are only tested). *)
Record Bidirectional := {
  wrapper : Wrapper;
  forwardLayer : option Layer;
  backwardLayer : option Layer;
  mergeMode : option string;
  returnSequences : bool;
  returnState : bool;
  numConstants : option nat;
  _trainable : option bool
}.

Definition set_wrapper (v : Wrapper) (b : Bidirectional) : Bidirectional :=
  {| wrapper := v; forwardLayer := forwardLayer b;
     backwardLayer := backwardLayer b; mergeMode := mergeMode b;
     returnSequences := returnSequences b; returnState := returnState b;
     numConstants := numConstants b; _trainable := _trainable b |}.

Definition set_forwardLayer (v : option Layer) (b : Bidirectional) : Bidirectional :=
  {| wrapper := wrapper b; forwardLayer := v;
     backwardLayer := backwardLayer b; mergeMode := mergeMode b;
     returnSequences := returnSequences b; returnState := returnState b;
     numConstants := numConstants b; _trainable := _trainable b |}.

Definition set_backwardLayer (v : option Layer) (b : Bidirectional) : Bidirectional :=
  {| wrapper := wrapper b; forwardLayer := forwardLayer b;
     backwardLayer := v; mergeMode := mergeMode b;
     returnSequences := returnSequences b; returnState := returnState b;
     numConstants := numConstants b; _trainable := _trainable b |}.

Definition set_mergeMode (v : option string) (b : Bidirectional) : Bidirectional :=
  {| wrapper := wrapper b; forwardLayer := forwardLayer b;
     backwardLayer := backwardLayer b; mergeMode := v;
     returnSequences := returnSequences b; returnState := returnState b;
     numConstants := numConstants b; _trainable := _trainable b |}.

Definition set_returnSequences (v : bool) (b : Bidirectional) : Bidirectional :=
  {| wrapper := wrapper b; forwardLayer := forwardLayer b;
     backwardLayer := backwardLayer b; mergeMode := mergeMode b;
     returnSequences := v; returnState := returnState b;
     numConstants := numConstants b; _trainable := _trainable b |}.

Definition set_returnState (v : bool) (b : Bidirectional) : Bidirectional :=
  {| wrapper := wrapper b; forwardLayer := forwardLayer b;
     backwardLayer := backwardLayer b; mergeMode := mergeMode b;
     returnSequences := returnSequences b; returnState := v;
     numConstants := numConstants b; _trainable := _trainable b |}.

Definition set_numConstants (v : option nat) (b : Bidirectional) : Bidirectional :=
  {| wrapper := wrapper b; forwardLayer := forwardLayer b;
     backwardLayer := backwardLayer b; mergeMode := mergeMode b;
     returnSequences := returnSequences b; returnState := returnState b;
     numConstants := v; _trainable := _trainable b |}.

Definition set__trainable (v : option bool) (b : Bidirectional) : Bidirectional :=
  {| wrapper := wrapper b; forwardLayer := forwardLayer b;
     backwardLayer := backwardLayer b; mergeMode := mergeMode b;
     returnSequences := returnSequences b; returnState := returnState b;
     numConstants := numConstants b; _trainable := v |}.

(** The object a constructor starts from: nothing assigned yet. *)
Definition blank_Wrapper : Wrapper :=
  {| layer := None; built := false; inputSpec := []; supportsMasking := false;
     _stateful := false; baseConfig := ∅ |}.

Definition blank_Bidirectional : Bidirectional :=
  {| wrapper := blank_Wrapper; forwardLayer := None; backwardLayer := None;
     mergeMode := None; returnSequences := false; returnState := false;
     numConstants := None; _trainable := None |}.

(** [BidirectionalLayerConfig]: the layer to wrap, the optional merge
    mode (typed as the union of four literals, a plain string at run
    time), the optional [weights] of [LayerConfig], and the remaining
    generic fields. *)
Record BidirectionalLayerConfig := {
  cfg_layer : Layer;
  cfg_mergeMode : option string;
  cfg_weights : option (list Tensor);
  cfg_rest : ConfigDict
}.

(** What [apply] and [call] work on: the receiver, the [kwargs] object
    they were handed (shared with the caller, so assignments to it
    outlive the call), and the identity the next new array will get. *)
Record Invocation := {
  self : Bidirectional;
  kwargs : Kwargs;
  nextArray : positive
}.

Definition set_self (v : Bidirectional) (w : Invocation) : Invocation :=
  {| self := v; kwargs := kwargs w; nextArray := nextArray w |}.

Definition set_kwargs (v : Kwargs) (w : Invocation) : Invocation :=
  {| self := self w; kwargs := v; nextArray := nextArray w |}.

(** The result of [standardizeArgs]. *)
Record StandardizedArgs := {
  std_inputs : TVal;
  std_initialState : option Arr;
  std_constants : option Arr
}.

(** ** Collaborators

    Code the file imports and calls but does not define.  Methods of the
    wrapped layer are dispatched on the layer object, so they take it as
    their state. *)
Record Env := {
  (** [utils/types_utils] *)
  getExactlyOneShape : ShapeArg -> result Shape;
  (** [layer.build(shape)], [layer.computeOutputShape(shape)] (cast to a
      single [Shape] by its only caller) and [layer.call(inputs, kwargs)]
      of a wrapped layer; [call] reads the options without changing them *)
  layer_build : ShapeArg -> M Layer unit;
  layer_computeOutputShape : Layer -> Shape -> result Shape;
  layer_call : TVal -> Kwargs -> M Layer TVal;
  (** [deserialize({className, config})] of [layers/serialization]; it
      reads the configuration when it is called and keeps no reference
      to the dictionary, which the constructor modifies afterwards *)
  deserialize : string -> ConfigDict -> result Layer;
  (** the constructor and [apply] of the base class [Layer], run on a
      [Bidirectional] receiver *)
  Layer_constructor : BidirectionalLayerConfig -> M Bidirectional unit;
  Layer_apply : TVal -> M Invocation TVal;
  (** [standardizeArgs] of [layers/recurrent] *)
  standardizeArgs : TVal -> KVal -> KVal -> option nat -> result StandardizedArgs;
  (** tensor operations: [tfc.reverse(x, 1)], [K.concatenate],
      [tfc.add], [tfc.mul], [getScalar(0.5)], and the method
      [Tensor.slice] *)
  tfc_reverse : TVal -> nat -> result TVal;
  K_concatenate : list TVal -> result TVal;
  tfc_add : TVal -> TVal -> result TVal;
  tfc_mul : TVal -> TVal -> result TVal;
  getScalar_half : TVal;
  Tensor_slice : Tensor -> nat -> result TVal
}.

(** ** Methods of the wrapped layer that belong to the base class *)

(** Modelled from the spec: [Layer.getWeights] is not in this file; the
    wrappers obtain a layer's weight list through it ("pure
    delegation"). *)
Definition Layer_getWeights : M Layer (list Tensor) := gets l_weights.

(** The shapes of a list of weights, in order. *)
Definition weight_shapes (weights : list Tensor) : list Shape :=
  tensor_shape <$> weights.

(** Modelled from the spec: [Layer.setWeights] is not in this file; the
    spec says it "fails (or signals ValueError) if the supplied weight
    count/shape is incompatible with the inner layer's own validation".
    The count is validated first, then the shape of every supplied
    tensor against the weight it is to replace; only a list that passes
    both is stored. *)
Definition Layer_setWeights (weights : list Tensor) : M Layer unit :=
  params <- gets l_weights ;;
  if bool_decide (length params = length weights) then
    if bool_decide (weight_shapes params = weight_shapes weights)
    then modify (set_l_weights weights)
    else throw (ValueError "Layer weight shape not compatible with provided weight shape")
  else throw (ValueError "The number of provided weights does not match the layer's weights").

(** ** Wrapper *)

Section WrapperMethods.

Variable env : Env.

(** [this.layer.m(...)]. *)
Definition on_layer {A} (m : M Layer A) : M Wrapper A :=
  zoom layer (fun l => set_layer (Some l)) m.

Definition Wrapper_constructor (config : BidirectionalLayerConfig) : M Bidirectional unit :=
  Layer_constructor env config ;;
  modify (fun this => set_wrapper (set_layer (Some (cfg_layer config)) (wrapper this)) this).

Definition Wrapper_build (inputShape : ShapeArg) : M Wrapper unit :=
  modify (set_built true).



Definition Wrapper_getWeights : M Wrapper (list Tensor) :=
  on_layer Layer_getWeights.

Definition Wrapper_setWeights (weights : list Tensor) : M Wrapper unit :=
  on_layer (Layer_setWeights weights).

Definition Wrapper_getConfig : M Wrapper ConfigDict :=
  l <- on_layer get ;;
  let config : ConfigDict :=
    {[ "layer" := CDict {[ "className" := CStr (l_className l);
                           "config" := CDict (l_config l) ]} ]} in
  baseConfig <- gets baseConfig ;;
  ret (Object_assign config baseConfig).

(** ** TimeDistributed *)

Definition TimeDistributed_build (inputShape : ShapeArg) : M TimeDistributed unit :=
  inputShape <- lift (getExactlyOneShape env inputShape) ;;
  if bool_decide (length inputShape < 3) then
    throw (ValueError
      ("TimeDistributed layer expects an input shape >= 3D, but received " +:+
       "input shape " +:+ JSON_stringify inputShape))
  else
    modify (set_inputSpec [shape_literal inputShape]) ;;
    let childInputShape := [js_index inputShape 0] ++ drop 2 inputShape in
    l <- on_layer get ;;
    (if negb (l_built l) then
       on_layer (layer_build env (OneShape childInputShape)) ;;
       on_layer (modify (set_l_built true))
     else ret tt) ;;
    Wrapper_build (OneShape inputShape).

Definition TimeDistributed_computeOutputShape (inputShape : ShapeArg)
    : M TimeDistributed Shape :=
  inputShape <- lift (getExactlyOneShape env inputShape) ;;
  let childInputShape := [js_index inputShape 0] ++ drop 2 inputShape in
  l <- on_layer get ;;
  childOutputShape <- lift (layer_computeOutputShape env l childInputShape) ;;
  let timesteps := js_index inputShape 1 in
  ret ([js_index childOutputShape 0; timesteps] ++ drop 1 childOutputShape).

End WrapperMethods.

(** ** Bidirectional *)

Definition VALID_BIDIRECTIONAL_MERGE_MODES : list string :=
  ["sum"; "mul"; "concat"; "ave"].

(** Modelled from the spec: [generic_utils.checkStringTypeUnionValue] is
    not in this file.  The spec says the merge mode "must be validated
    against the enumeration at construction; invalid values are
    rejected" with a validation error, and that the absent mode (none)
    belongs to the enumeration. *)
Definition checkStringTypeUnionValue {S} (values : list string) (label : string)
    (value : option string) : M S unit :=
  match value with
  | None => ret tt
  | Some v =>
      if bool_decide (v ∈ values) then ret tt
      else throw (ValueError (v +:+ " is not a valid " +:+ label +:+ "."))
  end.

Definition checkBidirectionalMergeMode {S} (value : option string) : M S unit :=
  checkStringTypeUnionValue VALID_BIDIRECTIONAL_MERGE_MODES
    "BidirectionalMergeMode" value.

Section BidirectionalMethods.

Variable env : Env.

(** [this.forwardLayer.m(...)] and [this.backwardLayer.m(...)]. *)
Definition on_forwardLayer {A} (m : M Layer A) : M Bidirectional A :=
  zoom forwardLayer (fun l => set_forwardLayer (Some l)) m.

Definition on_backwardLayer {A} (m : M Layer A) : M Bidirectional A :=
  zoom backwardLayer (fun l => set_backwardLayer (Some l)) m.

(** A method of the inherited part run on the whole object. *)
Definition on_wrapper {A} (m : M Wrapper A) : M Bidirectional A :=
  zoom (fun this => Some (wrapper this)) set_wrapper m.

(** [layerConfig['goBackwards'] === true ? false : true]. *)
Definition flip_goBackwards (layerConfig : ConfigDict) : bool :=
  match layerConfig !! "goBackwards" with
  | Some (CBool true) => false
  | _ => true
  end.

Definition Bidirectional_constructor (config : BidirectionalLayerConfig)
    : M Bidirectional unit :=
  Wrapper_constructor env config ;;
  let layerConfig := l_config (cfg_layer config) in
  forward <- lift (deserialize env (l_className (cfg_layer config)) layerConfig) ;;
  modify (set_forwardLayer (Some forward)) ;;
  let layerConfig :=
    <["goBackwards" := CBool (flip_goBackwards layerConfig)]> layerConfig in
  backward <- lift (deserialize env (l_className (cfg_layer config)) layerConfig) ;;
  modify (set_backwardLayer (Some backward)) ;;
  on_forwardLayer (modify (fun l => set_l_name ("forward_" +:+ l_name l) l)) ;;
  on_backwardLayer (modify (fun l => set_l_name ("backward_" +:+ l_name l) l)) ;;
  checkBidirectionalMergeMode (cfg_mergeMode config) ;;
  modify (set_mergeMode (cfg_mergeMode config)) ;;
  match cfg_weights config with
  | Some _ =>
      throw (NotImplementedError
        "weights support is not implemented for Bidirectional layer yet.")
  | None =>
      on_wrapper (modify (set__stateful (l_stateful (cfg_layer config)))) ;;
      modify (set_returnSequences (l_returnSequences (cfg_layer config))) ;;
      modify (set_returnState (l_returnState (cfg_layer config))) ;;
      on_wrapper (modify (set_supportsMasking true)) ;;
      modify (set__trainable (Some true)) ;;
      on_wrapper (modify (set_inputSpec (l_inputSpec (cfg_layer config)))) ;;
      modify (set_numConstants None)
  end.

(** [new Bidirectional(config)]: the constructor run on a fresh object.
    The first component is the object as the constructor left it, also
    when it threw. *)
Definition new_Bidirectional (config : BidirectionalLayerConfig)
    : Bidirectional * result unit :=
  Bidirectional_constructor config blank_Bidirectional.

Definition Bidirectional_trainable (this : Bidirectional) : option bool :=
  _trainable this.

Definition Bidirectional_set_trainable (value : bool) : M Bidirectional unit :=
  modify (set__trainable (Some value)) ;;
  this <- get ;;
  (match forwardLayer this with
   | Some _ => on_forwardLayer (modify (set_l_trainable value))
   | None => ret tt
   end) ;;
  match backwardLayer this with
  | Some _ => on_backwardLayer (modify (set_l_trainable value))
  | None => ret tt
  end.

Definition Bidirectional_getWeights : M Bidirectional (list Tensor) :=
  forward <- on_forwardLayer Layer_getWeights ;;
  backward <- on_backwardLayer Layer_getWeights ;;
  ret (forward ++ backward).

Definition Bidirectional_setWeights (weights : list Tensor) : M Bidirectional unit :=
  let numWeights := length weights in
  let numeightsOver2 := numWeights / 2 in
  on_forwardLayer (Layer_setWeights (take numeightsOver2 weights)) ;;
  on_backwardLayer (Layer_setWeights (drop numeightsOver2 weights)).

Definition Bidirectional_getConfig : M Bidirectional ConfigDict :=
  this <- get ;;
  let config : ConfigDict :=
    {[ "mergeMode" := match mergeMode this with
                      | Some m => CStr m
                      | None => CNull
                      end ]} in
  baseConfig <- on_wrapper Wrapper_getConfig ;;
  ret (Object_assign config baseConfig).

(** *** [apply] and [call]

    Both take [kwargs].  A caller that passes no [kwargs] to [apply]
    makes it work on a fresh empty object ([kwargs = {}]); reading a key
    of an empty object gives the [null] the source substitutes, so that
    case is the run on [kwargs := ∅]. *)

Definition on_self {A} (m : M Bidirectional A) : M Invocation A :=
  zoom (fun w => Some (self w)) set_self m.

(** [kwargs[key] = v], and [Object.assign(kwargs, {key: v})]. *)
Definition assign_kwargs (source : Kwargs) : M Invocation unit :=
  modify (fun w => set_kwargs (Object_assign (kwargs w) source) w).

(** A new array object, as [slice] returns: it gets an identity no
    earlier array has. *)
Definition new_Array (items : list TVal) : M Invocation Arr :=
  fun w =>
    ({| self := self w; kwargs := kwargs w;
        nextArray := Pos.succ (nextArray w) |},
     Ok {| arr_id := nextArray w; arr_items := items |}).

(** [state.shape]. *)
Definition shape_of {S} (state : TVal) : M S (option Shape) :=
  match state with
  | VTensor t => ret (Some (tensor_shape t))
  | VList _ => ret None
  | VUndef => throw (TypeError "Cannot read properties of undefined (reading 'shape')")
  end.

(** How lines 381-425 of [apply] end: with the early
    [return super.apply(inputs, kwargs)], or with the additional inputs
    and their specifications collected. *)
Inductive Prepared :=
  | EarlyApply (inputs : TVal)
  | Additional (inputs : TVal) (additionalInputs : list TVal)
               (additionalSpecs : list InputSpec).

(** Lines 381-425: standardising the arguments and collecting the
    initial states. *)
Definition Bidirectional_apply_prepare (inputs : TVal) : M Invocation Prepared :=
  kw <- gets kwargs ;;
  let initialState := kw_get "initialState" kw in
  let constants := kw_get "constants" kw in
  this <- gets self ;;
  standardized <-
    lift (standardizeArgs env inputs initialState constants (numConstants this)) ;;
  let inputs := std_inputs standardized in
  let initialState := std_initialState standardized in
  let constants := std_constants standardized in
  unpacked <-
    (match inputs with
     | VList l =>
         initialState <- new_Array (drop 1 l) ;;
         ret (js_nth l 0, Some initialState)
     | _ => ret (inputs, initialState)
     end) ;;
  let inputs := fst unpacked in
  let initialState := snd unpacked in
  if match initialState with
     | None => true
     | Some a => bool_decide (length (arr_items a) = 0)
     end && match constants with None => true | Some _ => false end
  then ret (EarlyApply inputs)
  else
    additional <-
      (match initialState with
       | Some a =>
           let numStates := length (arr_items a) in
           if bool_decide (0 < numStates mod 2) then
             throw (ValueError
               ("When passing `initialState` to a Bidrectional RNN, " +:+
                "the state should be an Array containing the states of " +:+
                "the underlying RNNs."))
           else
             assign_kwargs {[ "initialState" := KArray a ]} ;;
             stateSpecs <-
               mapM (fun state => shape <- shape_of state ;;
                                  ret (new_InputSpec shape)) (arr_items a) ;;
             on_self (on_forwardLayer
               (modify (set_l_stateSpec (take (numStates / 2) stateSpecs)))) ;;
             on_self (on_backwardLayer
               (modify (set_l_stateSpec (drop (numStates / 2) stateSpecs)))) ;;
             ret (arr_items a, stateSpecs)
       | None => ret ([], [])
       end) ;;
    let additionalInputs : list TVal := fst additional in
    let additionalSpecs : list InputSpec := snd additional in
    match constants with
    | Some _ =>
        throw (NotImplementedError
          ("Support for constants in Bidirectional layers is not " +:+
           "implemented yet."))
    | None => ret (Additional inputs additionalInputs additionalSpecs)
    end.

(** Lines 427-457: the check against mixed inputs and the call of
    [super.apply], under a widened [inputSpec] for symbolic states. *)
Definition Bidirectional_apply_finish (inputs : TVal)
    (additionalInputs : list TVal) (additionalSpecs : list InputSpec)
    : M Invocation TVal :=
  let isSymbolicTensor :=
    instanceof_SymbolicTensor (js_nth additionalInputs 0) in
  if existsb (fun tensor =>
                negb (eqb (instanceof_SymbolicTensor tensor) isSymbolicTensor))
             additionalInputs
  then
    throw (ValueError
      ("The initial state of a Bidirectional layer cannot be " +:+
       "specified as a mix of symbolic and non-symbolic tensors"))
  else if isSymbolicTensor then
    let fullInput := VList ([inputs] ++ additionalInputs) in
    this <- gets self ;;
    let fullInputSpec := inputSpec (wrapper this) ++ additionalSpecs in
    let originalInputSpec := inputSpec (wrapper this) in
    on_self (on_wrapper (modify (set_inputSpec fullInputSpec))) ;;
    output <- Layer_apply env fullInput ;;
    on_self (on_wrapper (modify (set_inputSpec originalInputSpec))) ;;
    ret output
  else Layer_apply env inputs.

Definition Bidirectional_apply (inputs : TVal) : M Invocation TVal :=
  prepared <- Bidirectional_apply_prepare inputs ;;
  match prepared with
  | EarlyApply inputs => Layer_apply env inputs
  | Additional inputs additionalInputs additionalSpecs =>
      Bidirectional_apply_finish inputs additionalInputs additionalSpecs
  end.

(** [a.concat(x)] appends the elements of [x] when [x] is an array and
    [x] itself otherwise. *)
Definition concat_arg (x : TVal) : list TVal :=
  match x with
  | VList l => l
  | _ => [x]
  end.

(** [x[0]]: an element of an array, [undefined] on a tensor (it has no
    such property), a [TypeError] on [undefined]. *)
Definition index0 {S} (x : TVal) : M S TVal :=
  match x with
  | VList l => ret (js_nth l 0)
  | VTensor _ => ret VUndef
  | VUndef => throw (TypeError "Cannot read properties of undefined (reading '0')")
  end.

(** [x.slice(1)]: the tail of an array, the [slice] method of a tensor,
    a [TypeError] on [undefined]. *)
Definition slice1 {S} (x : TVal) : M S TVal :=
  match x with
  | VList l => ret (VList (drop 1 l))
  | VTensor t => lift (Tensor_slice env t 1)
  | VUndef => throw (TypeError "Cannot read properties of undefined (reading 'slice')")
  end.

(** Lines 471-481: the two directional runs.  With an initial state the
    same [kwargs] object is assigned each half in turn. *)
Definition Bidirectional_call_directions (inputs : TVal) : M Invocation (TVal * TVal) :=
  kw <- gets kwargs ;;
  let initialState := kw_get "initialState" kw in
  match initialState with
  | KNullish =>
      y <- on_self (on_forwardLayer (layer_call env inputs kw)) ;;
      yRev <- on_self (on_backwardLayer (layer_call env inputs kw)) ;;
      ret (y, yRev)
  | KArray initialState =>
      let items := arr_items initialState in
      forwardState <- new_Array (take (length items / 2) items) ;;
      backwardState <- new_Array (drop (length items / 2) items) ;;
      on_self (on_forwardLayer get) ;;
      assign_kwargs {[ "initialState" := KArray forwardState ]} ;;
      kw <- gets kwargs ;;
      y <- on_self (on_forwardLayer (layer_call env inputs kw)) ;;
      on_self (on_forwardLayer get) ;;
      assign_kwargs {[ "initialState" := KArray backwardState ]} ;;
      kw <- gets kwargs ;;
      yRev <- on_self (on_forwardLayer (layer_call env inputs kw)) ;;
      ret (y, yRev)
  | KBool _ | KTensor _ =>
      throw (TypeError "initialState.slice is not a function")
  end.

(** Lines 483-517: collecting the states, reversing and merging. *)
Definition Bidirectional_call_merge (this : Bidirectional) (y yRev : TVal)
    : M Invocation TVal :=
  collected <-
    (if returnState this then
       states <-
         (match y with
          | VList ly =>
              tail <- slice1 yRev ;;
              ret (VList (drop 1 ly ++ concat_arg tail))
          | _ => ret VUndef
          end) ;;
       y <- index0 y ;;
       yRev <- index0 yRev ;;
       ret (y, yRev, states)
     else ret (y, yRev, VUndef)) ;;
  let y : TVal := fst (fst collected) in
  let yRev : TVal := snd (fst collected) in
  let states : TVal := snd collected in
  yRev <- (if returnSequences this then lift (tfc_reverse env yRev 1)
           else ret yRev) ;;
  output <-
    (if bool_decide (mergeMode this = Some "concat") then
       lift (K_concatenate env [y; yRev])
     else if bool_decide (mergeMode this = Some "sum") then
       lift (tfc_add env y yRev)
     else if bool_decide (mergeMode this = Some "ave") then
       s <- lift (tfc_add env y yRev) ;;
       lift (tfc_mul env (getScalar_half env) s)
     else if bool_decide (mergeMode this = Some "mul") then
       lift (tfc_mul env y yRev)
     else if bool_decide (mergeMode this = None) then
       ret (VList [y; yRev])
     else ret VUndef) ;;
  if returnState this then
    if bool_decide (mergeMode this = None) then
      match output with
      | VList l => ret (VList (l ++ concat_arg states))
      | _ => throw (TypeError "output.concat is not a function")
      end
    else ret (VList ([output] ++ concat_arg states))
  else ret output.

(** [tidy] runs its argument and returns what it returns; the release of
    intermediate tensors is not part of the state. *)
Definition Bidirectional_call (inputs : TVal) : M Invocation TVal :=
  kw <- gets kwargs ;;
  if negb (is_nullish (kw_get "mask" kw)) then
    throw (NotImplementedError
      ("The support for masking is not implemented for " +:+
       "Bidirectional layers yet."))
  else
    ys <- Bidirectional_call_directions inputs ;;
    this <- gets self ;;
    Bidirectional_call_merge this (fst ys) (snd ys).

End BidirectionalMethods.

(** ** Further methods of the two wrappers *)

(** *** [Bidirectional.build] *)

Section BidirectionalBuild.

Variable env : Env.

(** [nameScope(name, fn)] runs [fn] and returns what it returns; the
    stack of scope names it maintains is not part of the state.  Reading
    [this.forwardLayer.name] for it is the first use of the clone. *)
Definition Bidirectional_build (inputShape : ShapeArg) : M Bidirectional unit :=
  on_forwardLayer (gets l_name) ;;
  on_forwardLayer (layer_build env inputShape) ;;
  on_backwardLayer (gets l_name) ;;
  on_backwardLayer (layer_build env inputShape) ;;
  on_wrapper (modify (set_built true)).

End BidirectionalBuild.

(** *** [Bidirectional.computeOutputShape] *)

(** An entry of a shape after [x *= 2]: a [Dim], or the [NaN] that
    doubling [undefined] gives. *)
Inductive Entry :=
  | EDim (d : Dim)
  | ENaN.

(** [d * 2] in JavaScript: [null * 2] is [0], [undefined * 2] is [NaN]. *)
Definition times2 (d : Dim) : Entry :=
  match d with
  | DNum n => EDim (DNum (n * 2))
  | DNull => EDim (DNum 0)
  | DUndef => ENaN
  end.

(** A shape whose entries nothing has been done to. *)
Definition entries (s : Shape) : list Entry := List.map EDim s.

(** [s[s.length - 1] *= 2].  On an empty array this writes a property
    named [-1] and no element: the elements stay as they are. *)
Definition double_last (s : Shape) : list Entry :=
  match s with
  | [] => []
  | _ => entries (take (length s - 1) s) ++ [times2 (js_index s (length s - 1))]
  end.

(** A result of type [Shape|Shape[]]. *)
Inductive ShapesOut :=
  | SingleShape (s : list Entry)
  | ShapeList (ss : list (list Entry)).

Section BidirectionalComputeOutputShape.

(** [forwardLayer.computeOutputShape(inputShape)] in its full type, and
    [generic_utils.singletonOrArray]. *)
Variable rnn_computeOutputShape : Layer -> ShapeArg -> result ShapeArg.
Variable singletonOrArray : list (list Entry) -> ShapesOut.

Definition Bidirectional_computeOutputShape (inputShape : ShapeArg)
    : M Bidirectional ShapesOut :=
  forward <- on_forwardLayer get ;;
  layerShapes <- lift (rnn_computeOutputShape forward inputShape) ;;
  let layerShapes : list Shape :=
    match layerShapes with
    | ManyShapes (s :: ss) => s :: ss
    | ManyShapes [] => [[]]
    | OneShape s => [s]
    end in
  this <- get ;;
  let stateShape : list (list Entry) := entries <$> drop 1 layerShapes in
  let outputShape : Shape := default [] (layerShapes !! 0) in
  let merged : list Entry * list (list Entry) :=
    if bool_decide (mergeMode this = Some "concat") then
      (double_last outputShape, [double_last outputShape])
    else if bool_decide (mergeMode this = None) then
      (entries outputShape, [entries outputShape; entries outputShape])
    else
      (entries outputShape, [entries outputShape]) in
  let outputShape := fst merged in
  let outputShapes := snd merged in
  if returnState this then
    if bool_decide (mergeMode this = None) then
      ret (ShapeList (outputShapes ++ stateShape ++ stateShape))
    else
      ret (ShapeList ([outputShape] ++ stateShape ++ stateShape))
  else ret (singletonOrArray outputShapes).

End BidirectionalComputeOutputShape.

(** *** [fromConfig] *)

(** A value of the dictionary handed to [fromConfig]: JSON, or the live
    layer object [Bidirectional.fromConfig] stores in it. *)
Inductive ConfigEntry :=
  | Json (v : ConfigValue)
  | LayerObject (l : Layer).

(** [x != null] on such a value ([None] is [undefined]). *)
Definition entry_non_null (x : option ConfigEntry) : bool :=
  match x with
  | None | Some (Json CNull) => false
  | Some _ => true
  end.

Section FromConfig.

(** The class being instantiated, [T], with [new cls(config)], which
    reads its configuration; and [deserialize(config, customObjects)] on
    a value of the dictionary, the second argument being optional. *)
Variable T : Type.
Variable cls : gmap string ConfigEntry -> result T.
Variable deserialize_entry :
  option ConfigEntry -> option ConfigDict -> result Layer.

(** The state is the caller's [config] object. *)
Definition Wrapper_fromConfig (customObjects : ConfigDict)
    : M (gmap string ConfigEntry) T :=
  config <- get ;;
  let layerConfig := config !! "layer" in
  layer <- lift (deserialize_entry layerConfig (Some customObjects)) ;;
  modify (delete "layer") ;;
  let newConfig : gmap string ConfigEntry := {[ "layer" := LayerObject layer ]} in
  config <- get ;;
  let newConfig := Object_assign newConfig config in
  lift (cls newConfig).

Definition Bidirectional_fromConfig : M (gmap string ConfigEntry) T :=
  config <- get ;;
  rnnLayer <- lift (deserialize_entry (config !! "layer") None) ;;
  modify (delete "layer") ;;
  config <- get ;;
  if entry_non_null (config !! "numConstants") then
    throw (NotImplementedError
      ("Deserialization of a Bidirectional layer with numConstants " +:+
       "present is not supported yet."))
  else
    modify (insert "layer" (LayerObject rnnLayer)) ;;
    newConfig <- get ;;
    lift (cls newConfig).

End FromConfig.

(** ** A concrete environment

    One instance of the collaborators, small enough to run the methods
    on examples: a registry that builds a layer from any class name and
    configuration, a dense-like shape rule, and a [call] whose output
    records which clone ran (its [goBackwards] flag) and how many
    initial states it was given. *)

Definition demo_getExactlyOneShape (shapes : ShapeArg) : result Shape :=
  match shapes with
  | OneShape s => Ok s
  | ManyShapes [s] => Ok s
  | ManyShapes _ => Err (ValueError "Expected exactly 1 Shape")
  end.

Definition demo_clone (className : string) (config : ConfigDict) : Layer :=
  {| l_name := match config !! "name" with
               | Some (CStr n) => n
               | _ => className
               end;
     l_className := className;
     l_config := config;
     l_trainable := true;
     l_built := false;
     l_weights := [];
     l_stateSpec := [];
     l_inputSpec := [{| spec_shape := None; spec_ndim := Some 3 |}];
     l_stateful := config_flag "stateful" config;
     l_returnSequences := config_flag "returnSequences" config;
     l_returnState := config_flag "returnState" config |}.

Definition demo_deserialize (className : string) (config : ConfigDict)
    : result Layer :=
  Ok (demo_clone className config).

Definition demo_layer_call (inputs : TVal) (kw : Kwargs) : M Layer TVal :=
  l <- get ;;
  let direction : Z := if config_flag "goBackwards" (l_config l) then 1%Z else 0%Z in
  let numStates : Z :=
    match kw_get "initialState" kw with
    | KArray a => Z.of_nat (length (arr_items a))
    | _ => 0%Z
    end in
  ret (VTensor (Concrete [] [direction; numStates])).

Definition demo_layer_computeOutputShape (l : Layer) (s : Shape) : result Shape :=
  Ok (take (length s - 1) s ++ [DNum 8%Z]).

Definition demo_Layer_constructor (config : BidirectionalLayerConfig)
    : M Bidirectional unit :=
  Bidirectional_set_trainable (config_flag "trainable" (cfg_rest config)).

Definition demo_standardizeArgs (inputs : TVal) (initialState constants : KVal)
    (numConstants : option nat) : result StandardizedArgs :=
  match inputs with
  | VList l =>
      if negb (is_nullish initialState) || negb (is_nullish constants) then
        Err (ValueError "When inputs is an array, neither initialState or constants should be provided")
      else
        Ok {| std_inputs := js_nth l 0;
              std_initialState :=
                if bool_decide (1 < length l)
                then Some {| arr_id := 1; arr_items := drop 1 l |}
                else None;
              std_constants := None |}
  | _ =>
      Ok {| std_inputs := inputs;
            std_initialState :=
              match initialState with KArray a => Some a | _ => None end;
            std_constants :=
              match constants with KArray a => Some a | _ => None end |}
  end.

Definition demo_binary (f : Z -> Z -> Z) (x y : TVal) : result TVal :=
  match x, y with
  | VTensor (Concrete s d1), VTensor (Concrete _ d2) =>
      Ok (VTensor (Concrete s (zip_with f d1 d2)))
  | _, _ => Err (TypeError "Argument must be a Tensor")
  end.

Definition demo_env : Env :=
  {| getExactlyOneShape := demo_getExactlyOneShape;
     layer_build := fun _ => ret tt;
     layer_computeOutputShape := demo_layer_computeOutputShape;
     layer_call := demo_layer_call;
     deserialize := demo_deserialize;
     Layer_constructor := demo_Layer_constructor;
     Layer_apply := fun inputs => ret inputs;
     standardizeArgs := demo_standardizeArgs;
     tfc_reverse := fun x _ => Ok x;
     K_concatenate := fun xs => Ok (VList xs);
     tfc_add := demo_binary Z.add;
     tfc_mul := demo_binary Z.mul;
     getScalar_half := VTensor (Concrete [] [1%Z]);
     Tensor_slice := fun t _ => Ok (VTensor t) |}.

(** A recurrent layer to wrap, and configurations built on it. *)
Definition demo_rnn : Layer :=
  {| l_name := "simple_rnn_1";
     l_className := "SimpleRNN";
     l_config := {[ "name" := CStr "simple_rnn_1"; "units" := CNum 3%Z;
                    "returnSequences" := CBool true ]};
     l_trainable := false;
     l_built := false;
     l_weights := [];
     l_stateSpec := [];
     l_inputSpec := [{| spec_shape := None; spec_ndim := Some 3 |}];
     l_stateful := false;
     l_returnSequences := true;
     l_returnState := false |}.

Definition demo_config (mode : option string) : BidirectionalLayerConfig :=
  {| cfg_layer := demo_rnn; cfg_mergeMode := mode; cfg_weights := None;
     cfg_rest := ∅ |}.

(** [new Bidirectional({layer, mergeMode: 'concat'})] in [demo_env]. *)
Definition demo_bidirectional : Bidirectional :=
  fst (new_Bidirectional demo_env (demo_config (Some "concat"))).

Definition demo_state (n : Z) : TVal :=
  VTensor (Concrete [DNum 2%Z; DNum 3%Z] [n]).

Definition demo_symbolic (name : string) : TVal :=
  VTensor (Symbolic [DNull; DNum 3%Z] name).

Definition demo_input : TVal :=
  VTensor (Concrete [DNum 2%Z; DNum 5%Z; DNum 4%Z] []).

Definition demo_timeDistributed : TimeDistributed :=
  set_layer (Some demo_rnn) blank_Wrapper.

(** A symbolic call in [demo_env]: the input and two initial states in
    one array, no options. *)
Definition demo_symbolic_call : Invocation :=
  {| self := demo_bidirectional; kwargs := ∅; nextArray := 2 |}.

Definition demo_symbolic_inputs : TVal :=
  VList [demo_symbolic "x"; demo_symbolic "h_forward"; demo_symbolic "h_backward"].

(** A concrete call in [demo_env] with two initial states in [kwargs]. *)
Definition demo_initialState : Arr :=
  {| arr_id := 1; arr_items := [demo_state 10; demo_state 20] |}.

Definition demo_stateful_call : Invocation :=
  {| self := demo_bidirectional;
     kwargs := {[ "initialState" := KArray demo_initialState;
                  "training" := KBool false ]};
     nextArray := 2 |}.

(** A wrapper whose generic configuration has a field named ['layer']. *)
Definition demo_wrapper_with_layer_field : Wrapper :=
  {| layer := Some demo_rnn; built := false; inputSpec := [];
     supportsMasking := false; _stateful := false;
     baseConfig := {[ "name" := CStr "wrapper_1"; "layer" := CStr "generic" ]} |}.

(** ** Reference notions used in the statements *)

(** The time axis put back at position 1 of a shape: what
    [computeOutputShape] of [TimeDistributed] is specified to return. *)
Definition insert_timesteps (timesteps : Dim) (childOutputShape : Shape) : Shape :=
  take 1 childOutputShape ++ timesteps :: drop 1 childOutputShape.

(** The entries a wrapper contributes to its configuration: ['layer']
    for every wrapper, ['mergeMode'] for [Bidirectional]. *)
Definition layer_entry (l : Layer) : ConfigValue :=
  CDict {[ "className" := CStr (l_className l); "config" := CDict (l_config l) ]}.

Definition mergeMode_entry (this : Bidirectional) : ConfigValue :=
  match mergeMode this with
  | Some m => CStr m
  | None => CNull
  end.

(** The specification [apply] derives from one initial state: built
    from its shape alone. *)
Definition spec_of_state (state : TVal) : InputSpec :=
  new_InputSpec (match state with
                 | VTensor t => Some (tensor_shape t)
                 | _ => None
                 end).

(** [this.inputSpec = v] seen from [apply]. *)
Definition with_inputSpec (v : list InputSpec) (w : Invocation) : Invocation :=
  set_self (set_wrapper (set_inputSpec v (wrapper (self w))) (self w)) w.

(** [demo_env] with another [build] for the wrapped layers. *)
Definition demo_env_with_build (build : ShapeArg -> M Layer unit) : Env :=
  {| getExactlyOneShape := getExactlyOneShape demo_env;
     layer_build := build;
     layer_computeOutputShape := layer_computeOutputShape demo_env;
     layer_call := layer_call demo_env;
     deserialize := deserialize demo_env;
     Layer_constructor := Layer_constructor demo_env;
     Layer_apply := Layer_apply demo_env;
     standardizeArgs := standardizeArgs demo_env;
     tfc_reverse := tfc_reverse demo_env;
     K_concatenate := K_concatenate demo_env;
     tfc_add := tfc_add demo_env;
     tfc_mul := tfc_mul demo_env;
     getScalar_half := getScalar_half demo_env;
     Tensor_slice := Tensor_slice demo_env |}.

(** A [build] that creates one weight, and one that refuses the shape. *)
Definition demo_build_one_weight (inputShape : ShapeArg) : M Layer unit :=
  modify (fun l => set_l_weights (l_weights l ++ [Concrete [DNum 4; DNum 3] []]) l).

Definition demo_build_refuses (inputShape : ShapeArg) : M Layer unit :=
  throw (ValueError "Input shape is not supported").

(** [demo_rnn] configured to return its final state as well. *)
Definition set_l_returnState_demo (l : Layer) : Layer :=
  {| l_name := l_name l; l_className := l_className l;
     l_config := <["returnState" := CBool true]> (l_config l);
     l_trainable := l_trainable l; l_built := l_built l;
     l_weights := l_weights l; l_stateSpec := l_stateSpec l;
     l_inputSpec := l_inputSpec l; l_stateful := l_stateful l;
     l_returnSequences := l_returnSequences l;
     l_returnState := true |}.

(** Instances of the collaborators of [computeOutputShape] and
    [fromConfig]: the shape rule of a recurrent layer with three units,
    and a class whose constructor returns the configuration it was
    given, so that it can be inspected. *)
Definition demo_rnn_computeOutputShape (l : Layer) (inputShape : ShapeArg)
    : result ShapeArg :=
  match inputShape with
  | OneShape [b; t; _] =>
      let output := if l_returnSequences l then [b; t; DNum 3] else [b; DNum 3] in
      if l_returnState l then Ok (ManyShapes [output; [b; DNum 3]])
      else Ok (OneShape output)
  | _ => Err (ValueError "Expected a shape of rank 3")
  end.

Definition demo_singletonOrArray (xs : list (list Entry)) : ShapesOut :=
  match xs with
  | [x] => SingleShape x
  | _ => ShapeList xs
  end.

Definition demo_cls (config : gmap string ConfigEntry)
    : result (gmap string ConfigEntry) :=
  Ok config.

Definition demo_deserialize_entry (entry : option ConfigEntry)
    (customObjects : option ConfigDict) : result Layer :=
  match entry with
  | Some (Json (CDict d)) =>
      match d !! "className", d !! "config" with
      | Some (CStr className), Some (CDict config) =>
          Ok (demo_clone className config)
      | _, _ => Err (ValueError "Improper config format")
      end
  | _ => Err (ValueError "Improper config format")
  end.

(** The dictionary [getConfig] would produce for [demo_bidirectional],
    as [fromConfig] receives it. *)
Definition demo_saved_config : gmap string ConfigEntry :=
  {[ "layer" := Json (layer_entry demo_rnn);
     "mergeMode" := Json (CStr "concat");
     "name" := Json (CStr "bidirectional_1") ]}.

(** [preserves R m]: every run of [m], returning or throwing, ends in a
    state related by [R] to the one it started from. *)
Definition preserves {S A} (R : S -> S -> Prop) (m : M S A) : Prop :=
  forall s, R s (fst (m s)).

(** * Properties *)

(** ** Running a method step by step *)

Lemma bind_Ok {S A B} (m : M S A) (k : A -> M S B) s s' a :
  m s = (s', Ok a) -> bind m k s = k a s'.
Proof. intros H. unfold bind. by rewrite H. Qed.

Lemma bind_Err {S A B} (m : M S A) (k : A -> M S B) s s' e :
  m s = (s', Err e) -> bind m k s = (s', Err e).
Proof. intros H. unfold bind. by rewrite H. Qed.

(** A sequence that returns has returned from each of its parts. *)
Lemma bind_inv_Ok {S A B} (m : M S A) (k : A -> M S B) s s2 b :
  bind m k s = (s2, Ok b) ->
  exists a s1, m s = (s1, Ok a) /\ k a s1 = (s2, Ok b).
Proof.
  unfold bind. destruct (m s) as [s1 [a|e]]; [eauto | discriminate].
Qed.

Lemma zoom_Some {S T A} (proj : S -> option T) upd (m : M T A) s t :
  proj s = Some t -> zoom proj upd m s = (upd (fst (m t)) s, snd (m t)).
Proof. intros H. unfold zoom. rewrite H. by destruct (m t). Qed.

Lemma set_layer_same (this : Wrapper) l :
  layer this = Some l -> set_layer (Some l) this = this.
Proof. destruct this; simpl; intros ->; reflexivity. Qed.

(** Reading the wrapped layer leaves the wrapper as it is. *)
Lemma on_layer_get (this : Wrapper) l :
  layer this = Some l -> on_layer get this = (this, Ok l).
Proof.
  intros H. unfold on_layer. rewrite (zoom_Some _ _ _ _ l H). simpl.
  by rewrite set_layer_same.
Qed.

(** ** TimeDistributed *)

(** C8.  [TimeDistributed.build] on an input shape of rank below 3
    throws a [ValueError] whose message ends with the received shape as
    [JSON.stringify] prints it; the object is left as it was: the
    wrapped layer is not built and [built] is not set. *)
Theorem TimeDistributed_build_rank_below_3 (env : Env)
    (this : TimeDistributed) (arg : ShapeArg) (inputShape : Shape) :
  getExactlyOneShape env arg = Ok inputShape ->
  length inputShape < 3 ->
  TimeDistributed_build env arg this =
    (this,
     Err (ValueError
       ("TimeDistributed layer expects an input shape >= 3D, but received input shape "
        +:+ JSON_stringify inputShape)))
  /\ layer (fst (TimeDistributed_build env arg this)) = layer this
  /\ built (fst (TimeDistributed_build env arg this)) = built this.
Proof.
  intros Hone Hrank.
  assert (Hrun : TimeDistributed_build env arg this =
    (this,
     Err (ValueError
       ("TimeDistributed layer expects an input shape >= 3D, but received input shape "
        +:+ JSON_stringify inputShape)))).
  { unfold TimeDistributed_build.
    rewrite (bind_Ok _ _ this this inputShape) by (unfold lift; by rewrite Hone).
    rewrite bool_decide_eq_true_2 by exact Hrank.
    reflexivity. }
  rewrite Hrun. auto.
Qed.

Lemma TimeDistributed_build_rank_below_3_witness :
  snd (TimeDistributed_build demo_env (OneShape [DNum 2; DNum 3]) demo_timeDistributed)
  = Err (ValueError
      "TimeDistributed layer expects an input shape >= 3D, but received input shape [2,3]").
Proof.
  pose proof (TimeDistributed_build_rank_below_3 demo_env demo_timeDistributed
                (OneShape [DNum 2; DNum 3]) [DNum 2; DNum 3]) as H.
  destruct H as [H _]; [reflexivity | simpl; lia |].
  rewrite H. reflexivity.
Defined.

Lemma js_index_cons_S d (s : Shape) i : js_index (d :: s) (S i) = js_index s i.
Proof. reflexivity. Qed.

Lemma js_index_drop_1 (s : Shape) i : js_index (drop 1 s) i = js_index s (S i).
Proof. destruct s as [|d s]; [destruct i |]; reflexivity. Qed.

(** C5.  For an input shape [b; t; f1; ...; fk] of rank at least 3,
    [TimeDistributed.computeOutputShape] returns the output shape the
    wrapped layer computes on [b; f1; ...; fk], with [t] put at position
    1, whatever the rank of that output shape: axis 1 of the result is
    [t], axis 0 is axis 0 of the child output shape, and axis [i+1] is
    axis [i] of the child output shape for every [i >= 1].  (On a child
    output shape of rank 0, reading its axis 0 gives [undefined].) *)
Theorem TimeDistributed_computeOutputShape_timesteps (env : Env)
    (this : TimeDistributed) (l : Layer) (arg : ShapeArg)
    (b t f : Dim) (fs childOutputShape : Shape) :
  getExactlyOneShape env arg = Ok (b :: t :: f :: fs) ->
  layer this = Some l ->
  layer_computeOutputShape env l (b :: f :: fs) = Ok childOutputShape ->
  exists outputShape,
    TimeDistributed_computeOutputShape env arg this = (this, Ok outputShape)
    /\ js_index outputShape 1 = t
    /\ js_index outputShape 0 = js_index childOutputShape 0
    /\ (forall i, 1 <= i ->
          js_index outputShape (S i) = js_index childOutputShape i)
    /\ length outputShape = S (Nat.max 1 (length childOutputShape))
    /\ (childOutputShape <> [] ->
          outputShape = insert_timesteps t childOutputShape).
Proof.
  intros Hone Hlayer Hchild.
  exists ([js_index childOutputShape 0; t] ++ drop 1 childOutputShape).
  split.
  { unfold TimeDistributed_computeOutputShape.
    rewrite (bind_Ok _ _ this this (b :: t :: f :: fs))
      by (unfold lift; by rewrite Hone).
    rewrite (bind_Ok _ _ this this l) by (by apply on_layer_get).
    simpl drop. simpl app at 1.
    change (js_index (b :: t :: f :: fs) 0) with b.
    rewrite (bind_Ok _ _ this this childOutputShape)
      by (unfold lift; by rewrite Hchild).
    reflexivity. }
  split; [reflexivity |].
  split; [reflexivity |].
  split.
  { intros i Hi. destruct i as [|i]; [lia |].
    simpl app. rewrite !js_index_cons_S. apply js_index_drop_1. }
  split.
  { destruct childOutputShape as [|c0 cs]; simpl; [reflexivity |].
    rewrite drop_0. reflexivity. }
  intros Hne. destruct childOutputShape as [|c0 cs]; [done |].
  reflexivity.
Qed.

Lemma TimeDistributed_computeOutputShape_timesteps_witness :
  exists outputShape,
    TimeDistributed_computeOutputShape demo_env
      (OneShape [DNum 2; DNum 3; DNum 4]) demo_timeDistributed
      = (demo_timeDistributed, Ok outputShape)
    /\ outputShape = [DNum 2; DNum 3; DNum 8].
Proof.
  destruct (TimeDistributed_computeOutputShape_timesteps demo_env
              demo_timeDistributed demo_rnn (OneShape [DNum 2; DNum 3; DNum 4])
              (DNum 2) (DNum 3) (DNum 4) [] [DNum 2; DNum 8])
    as (out & Hrun & _ & _ & _ & _ & Hins); [reflexivity .. |].
  exists out. split; [exact Hrun |].
  rewrite Hins by discriminate. reflexivity.
Defined.

(** ** Weights of a Bidirectional wrapper *)

(** A wrapped layer accepts a list whose tensors have, one by one, the
    shapes of the weights it holds (so there are as many of them). *)
Lemma Layer_setWeights_accepts (l : Layer) (weights : list Tensor) :
  weight_shapes (l_weights l) = weight_shapes weights ->
  Layer_setWeights weights l = (set_l_weights weights l, Ok tt).
Proof.
  intros H. unfold Layer_setWeights, bind, gets.
  rewrite bool_decide_eq_true_2.
  - by rewrite bool_decide_eq_true_2.
  - apply (f_equal length) in H. unfold weight_shapes in H.
    by rewrite !length_fmap in H.
Qed.

(** ... and rejects any other list, keeping its weights. *)
Lemma Layer_setWeights_rejects (l : Layer) (weights : list Tensor) :
  weight_shapes (l_weights l) <> weight_shapes weights ->
  exists msg, Layer_setWeights weights l = (l, Err (ValueError msg)).
Proof.
  intros H. unfold Layer_setWeights, bind, gets.
  case_bool_decide; [| by eauto].
  rewrite bool_decide_eq_false_2 by exact H. eauto.
Qed.

Lemma set_forwardLayer_same (this : Bidirectional) l :
  forwardLayer this = Some l -> set_forwardLayer (Some l) this = this.
Proof. destruct this; simpl; intros ->; reflexivity. Qed.

Lemma set_backwardLayer_same (this : Bidirectional) l :
  backwardLayer this = Some l -> set_backwardLayer (Some l) this = this.
Proof. destruct this; simpl; intros ->; reflexivity. Qed.

(** Reading a clone (its weights, or the clone itself) leaves the
    wrapper as it is. *)
Lemma on_forwardLayer_gets {A} (f : Layer -> A) (this : Bidirectional) l :
  forwardLayer this = Some l -> on_forwardLayer (gets f) this = (this, Ok (f l)).
Proof.
  intros H. unfold on_forwardLayer. rewrite (zoom_Some _ _ _ _ l H). simpl.
  by rewrite set_forwardLayer_same.
Qed.

Lemma on_backwardLayer_gets {A} (f : Layer -> A) (this : Bidirectional) l :
  backwardLayer this = Some l -> on_backwardLayer (gets f) this = (this, Ok (f l)).
Proof.
  intros H. unfold on_backwardLayer. rewrite (zoom_Some _ _ _ _ l H). simpl.
  by rewrite set_backwardLayer_same.
Qed.

(** The three ways [setWeights] can end when both clones exist: the
    forward clone refuses its part and nothing is stored; the forward
    clone stores its part and the backward clone refuses the rest; both
    store. *)
Lemma Bidirectional_setWeights_cases (this : Bidirectional)
    (forward backward : Layer) (w : list Tensor) :
  forwardLayer this = Some forward ->
  backwardLayer this = Some backward ->
  let k := length w / 2 in
  let this1 := set_forwardLayer (Some (set_l_weights (take k w) forward)) this in
  let this2 :=
    set_backwardLayer (Some (set_l_weights (drop k w) backward)) this1 in
  (weight_shapes (l_weights forward) <> weight_shapes (take k w) ->
     exists msg, Bidirectional_setWeights w this = (this, Err (ValueError msg)))
  /\ (weight_shapes (l_weights forward) = weight_shapes (take k w) ->
      weight_shapes (l_weights backward) <> weight_shapes (drop k w) ->
      exists msg, Bidirectional_setWeights w this = (this1, Err (ValueError msg)))
  /\ (weight_shapes (l_weights forward) = weight_shapes (take k w) ->
      weight_shapes (l_weights backward) = weight_shapes (drop k w) ->
      Bidirectional_setWeights w this = (this2, Ok tt)).
Proof.
  intros Hf Hb k this1 this2.
  assert (Hfwd : weight_shapes (l_weights forward) = weight_shapes (take k w) ->
                 on_forwardLayer (Layer_setWeights (take k w)) this = (this1, Ok tt)).
  { intros Hk. unfold on_forwardLayer.
    rewrite (zoom_Some _ _ _ this forward) by exact Hf.
    by rewrite Layer_setWeights_accepts. }
  split; [| split].
  - intros Hne.
    destruct (Layer_setWeights_rejects forward (take k w) Hne) as [msg Hrej].
    exists msg. unfold Bidirectional_setWeights. fold k.
    erewrite bind_Err; [reflexivity |].
    unfold on_forwardLayer. rewrite (zoom_Some _ _ _ this forward) by exact Hf.
    rewrite Hrej. simpl. by rewrite set_forwardLayer_same.
  - intros Hk Hne.
    destruct (Layer_setWeights_rejects backward (drop k w) Hne) as [msg Hrej].
    exists msg. unfold Bidirectional_setWeights. fold k.
    rewrite (bind_Ok _ _ this this1 tt) by (by apply Hfwd).
    unfold on_backwardLayer.
    rewrite (zoom_Some _ _ _ this1 backward) by exact Hb.
    rewrite Hrej. simpl. unfold this1.
    destruct this; simpl in *. by rewrite Hb.
  - intros Hk Hk'. unfold Bidirectional_setWeights. fold k.
    rewrite (bind_Ok _ _ this this1 tt) by (by apply Hfwd).
    unfold on_backwardLayer.
    rewrite (zoom_Some _ _ _ this1 backward) by exact Hb.
    by rewrite Layer_setWeights_accepts.
Qed.

(** Once both clones have stored their parts, [getWeights] puts the
    list together again. *)
Lemma Bidirectional_getWeights_of_parts (this : Bidirectional)
    (forward backward : Layer) (w : list Tensor) (k : nat) :
  Bidirectional_getWeights
    (set_backwardLayer (Some (set_l_weights (drop k w) backward))
       (set_forwardLayer (Some (set_l_weights (take k w) forward)) this))
  = (set_backwardLayer (Some (set_l_weights (drop k w) backward))
       (set_forwardLayer (Some (set_l_weights (take k w) forward)) this),
     Ok w).
Proof.
  unfold Bidirectional_getWeights, Layer_getWeights.
  erewrite bind_Ok; last first.
  { by apply (on_forwardLayer_gets l_weights _ (set_l_weights (take k w) forward)). }
  erewrite bind_Ok; last first.
  { by apply (on_backwardLayer_gets l_weights _ (set_l_weights (drop k w) backward)). }
  unfold ret. cbn [l_weights set_l_weights]. by rewrite take_drop.
Qed.

(** When there are as many forward as backward weights, a list that
    agrees in shape, entry by entry, with the forward weights followed
    by the backward weights has the forward shapes in its first half and
    the backward shapes in the rest. *)
Lemma weight_shapes_split (fw bw w : list Tensor) :
  weight_shapes w = weight_shapes (fw ++ bw) ->
  length fw = length bw ->
  weight_shapes fw = weight_shapes (take (length w / 2) w)
  /\ weight_shapes bw = weight_shapes (drop (length w / 2) w).
Proof.
  intros Hshape Hsame.
  assert (Hk : length w / 2 = length (weight_shapes fw)).
  { pose proof (f_equal length Hshape) as Hlen. unfold weight_shapes in *.
    rewrite !length_fmap, length_app in Hlen. rewrite length_fmap, Hlen, <- Hsame.
    replace (length fw + length fw) with (length fw * 2) by lia.
    apply Nat.div_mul. lia. }
  rewrite Hk. unfold weight_shapes in *.
  rewrite fmap_take, fmap_drop, Hshape, fmap_app.
  by rewrite take_app_length, drop_app_length.
Qed.

(** C7, as stated, fails: an even number of weights equal to the
    combined count of the clones is refused when the tensors do not have
    the shapes of the weights they are to replace (first case, two
    tensors of shape [[4, 3]] for two scalar weights), and when the
    clones do not hold equally many weights (second case, one forward
    and three backward weights). *)
Lemma Bidirectional_setWeights_even_combined_count_refused :
  (let forward := set_l_weights [Concrete [] []] demo_rnn in
   let backward := set_l_weights [Concrete [] []] demo_rnn in
   let this :=
     set_forwardLayer (Some forward)
       (set_backwardLayer (Some backward) demo_bidirectional) in
   let w := [Concrete [DNum 4; DNum 3] [1%Z]; Concrete [DNum 4; DNum 3] [2%Z]] in
   Nat.Even (length w)
   /\ length w = length (l_weights forward) + length (l_weights backward)
   /\ (exists msg, Bidirectional_setWeights w this = (this, Err (ValueError msg)))
   /\ ~ (exists this',
           Bidirectional_setWeights w this = (this', Ok tt)
           /\ Bidirectional_getWeights this' = (this', Ok w)))
  /\
  (let forward := set_l_weights [Concrete [] []] demo_rnn in
   let backward :=
     set_l_weights [Concrete [] []; Concrete [] []; Concrete [] []] demo_rnn in
   let this :=
     set_forwardLayer (Some forward)
       (set_backwardLayer (Some backward) demo_bidirectional) in
   let w := [Concrete [] [1%Z]; Concrete [] [2%Z];
             Concrete [] [3%Z]; Concrete [] [4%Z]] in
   Nat.Even (length w)
   /\ length w = length (l_weights forward) + length (l_weights backward)
   /\ (exists msg, Bidirectional_setWeights w this = (this, Err (ValueError msg)))
   /\ ~ (exists this',
           Bidirectional_setWeights w this = (this', Ok tt)
           /\ Bidirectional_getWeights this' = (this', Ok w))).
Proof.
  split; intros forward backward this w.
  - split; [by exists 1 |]. split; [reflexivity |]. split.
    + eexists. vm_compute. reflexivity.
    + intros (this' & Hrun & _). vm_compute in Hrun. discriminate.
  - split; [by exists 2 |]. split; [reflexivity |]. split.
    + eexists. vm_compute. reflexivity.
    + intros (this' & Hrun & _). vm_compute in Hrun. discriminate.
Qed.

(** C7, amended.  On a wrapper whose two clones hold the same number of
    weights, let [w] be of even length equal to the combined weight
    count and let every entry of [w] have the shape of the weight at its
    position among the forward weights followed by the backward
    weights.  Then [setWeights(w)] succeeds, gives the first
    [floor(|w|/2)] entries to the forward clone and the rest to the
    backward clone, and a following [getWeights()] returns [w]. *)
Theorem Bidirectional_setWeights_getWeights
    (this : Bidirectional) (forward backward : Layer) (w : list Tensor) :
  forwardLayer this = Some forward ->
  backwardLayer this = Some backward ->
  Nat.Even (length w) ->
  length w = length (l_weights forward) + length (l_weights backward) ->
  length (l_weights forward) = length (l_weights backward) ->
  weight_shapes w = weight_shapes (l_weights forward ++ l_weights backward) ->
  exists this',
    Bidirectional_setWeights w this = (this', Ok tt)
    /\ l_weights <$> forwardLayer this' = Some (take (length w / 2) w)
    /\ l_weights <$> backwardLayer this' = Some (drop (length w / 2) w)
    /\ Bidirectional_getWeights this' = (this', Ok w).
Proof.
  intros Hf Hb _ _ Hsame Hshape.
  destruct (weight_shapes_split _ _ _ Hshape Hsame) as [Hfw Hbw].
  destruct (Bidirectional_setWeights_cases this forward backward w Hf Hb)
    as (_ & _ & Hgood).
  eexists. split; [by apply Hgood |].
  split; [reflexivity |]. split; [reflexivity |].
  apply Bidirectional_getWeights_of_parts.
Qed.

Lemma Bidirectional_setWeights_getWeights_witness :
  let w := [Concrete [DNum 4; DNum 3] [1%Z]; Concrete [DNum 4; DNum 3] [2%Z]] in
  let old := set_l_weights [Concrete [DNum 4; DNum 3] [0%Z]] demo_rnn in
  let this :=
    set_forwardLayer (Some old)
      (set_backwardLayer (Some old) demo_bidirectional) in
  exists this',
    Bidirectional_setWeights w this = (this', Ok tt)
    /\ l_weights <$> forwardLayer this' = Some [Concrete [DNum 4; DNum 3] [1%Z]]
    /\ l_weights <$> backwardLayer this' = Some [Concrete [DNum 4; DNum 3] [2%Z]]
    /\ Bidirectional_getWeights this' = (this', Ok w).
Proof.
  intros w old this.
  destruct (Bidirectional_setWeights_getWeights this old old w)
    as (this' & Hset & Hfw & Hbw & Hget).
  - reflexivity.
  - reflexivity.
  - exists 1. reflexivity.
  - reflexivity.
  - reflexivity.
  - reflexivity.
  - exists this'. repeat split; assumption.
Defined.

(** ** Configuration of a wrapper *)

(** [Object.assign] reads from the source first. *)
Lemma Object_assign_lookup {V} (target source : gmap string V) key :
  Object_assign target source !! key =
    match source !! key with
    | Some v => Some v
    | None => target !! key
    end.
Proof.
  unfold Object_assign. destruct (source !! key) as [v|] eqn:Hs.
  - by apply lookup_union_Some_l.
  - by rewrite lookup_union_r.
Qed.

Lemma Wrapper_getConfig_run (this : Wrapper) l :
  layer this = Some l ->
  Wrapper_getConfig this =
    (this, Ok (Object_assign {[ "layer" := layer_entry l ]} (baseConfig this))).
Proof.
  intros Hl. unfold Wrapper_getConfig.
  rewrite (bind_Ok _ _ this this l) by (by apply on_layer_get).
  reflexivity.
Qed.

Lemma set_wrapper_same (this : Bidirectional) :
  set_wrapper (wrapper this) this = this.
Proof. by destruct this. Qed.

Lemma Bidirectional_getConfig_run (this : Bidirectional) l :
  layer (wrapper this) = Some l ->
  Bidirectional_getConfig this =
    (this,
     Ok (Object_assign {[ "mergeMode" := mergeMode_entry this ]}
           (Object_assign {[ "layer" := layer_entry l ]}
              (baseConfig (wrapper this))))).
Proof.
  intros Hl. unfold Bidirectional_getConfig, bind, get, on_wrapper, zoom.
  rewrite (Wrapper_getConfig_run _ l Hl). by rewrite set_wrapper_same.
Qed.

(** C3, as the code has it.  [getConfig] of a wrapper returns the
    wrapper's own entry (['layer']; ['mergeMode'] for [Bidirectional])
    when the generic base configuration has no field of that key; when
    it has one, the base field's value is what the dictionary holds
    under the key. *)
Theorem getConfig_base_fields_take_precedence (this : Bidirectional) (l : Layer) :
  layer (wrapper this) = Some l ->
  exists wrapperConfig config,
    Wrapper_getConfig (wrapper this) = (wrapper this, Ok wrapperConfig)
    /\ Bidirectional_getConfig this = (this, Ok config)
    /\ wrapperConfig !! "layer" =
         match baseConfig (wrapper this) !! "layer" with
         | Some v => Some v
         | None => Some (layer_entry l)
         end
    /\ config !! "layer" = wrapperConfig !! "layer"
    /\ config !! "mergeMode" =
         match baseConfig (wrapper this) !! "mergeMode" with
         | Some v => Some v
         | None => Some (mergeMode_entry this)
         end.
Proof.
  intros Hl. eexists _, _.
  split; [by apply Wrapper_getConfig_run |].
  split; [by apply Bidirectional_getConfig_run |].
  rewrite !Object_assign_lookup.
  split; [by rewrite lookup_singleton_eq |].
  split.
  - rewrite lookup_singleton_eq.
    destruct (baseConfig (wrapper this) !! "layer"); reflexivity.
  - destruct (baseConfig (wrapper this) !! "mergeMode"); [done |].
    rewrite lookup_singleton_ne by done. by rewrite lookup_singleton_eq.
Qed.

Lemma getConfig_base_fields_take_precedence_witness :
  exists config,
    Bidirectional_getConfig demo_bidirectional = (demo_bidirectional, Ok config)
    /\ config !! "layer" = Some (layer_entry demo_rnn)
    /\ config !! "mergeMode" = Some (CStr "concat").
Proof.
  destruct (getConfig_base_fields_take_precedence demo_bidirectional demo_rnn)
    as (wc & c & _ & Hrun & Hlayer & Hsame & Hmode); [reflexivity |].
  exists c. split; [exact Hrun |]. split.
  - rewrite Hsame, Hlayer. reflexivity.
  - rewrite Hmode. reflexivity.
Defined.

(** C3, as stated, fails: a generic field named ['layer'] replaces the
    wrapper's own ['layer'] entry. *)
Lemma getConfig_layer_entry_overwritten :
  layer demo_wrapper_with_layer_field = Some demo_rnn
  /\ ~ (exists config,
          Wrapper_getConfig demo_wrapper_with_layer_field
            = (demo_wrapper_with_layer_field, Ok config)
          /\ config !! "layer" = Some (layer_entry demo_rnn)).
Proof.
  split; [reflexivity |].
  intros (config & Hrun & Hentry).
  rewrite (Wrapper_getConfig_run demo_wrapper_with_layer_field demo_rnn eq_refl)
    in Hrun.
  injection Hrun as <-.
  rewrite Object_assign_lookup in Hentry.
  change (baseConfig demo_wrapper_with_layer_field !! "layer")
    with (Some (CStr "generic")) in Hentry.
  discriminate Hentry.
Qed.

(** ** Construction of a Bidirectional wrapper *)

(** [inv_bind H Hs]: from [H], a sequence that returned, get [Hs], that
    its first part returned, and keep in [H] the run of the rest. *)
Ltac inv_bind H Hs :=
  let a := fresh "a" in
  let s := fresh "s" in
  apply bind_inv_Ok in H as (a & s & Hs & H).

(** The same, naming the value the first part returned. *)
Ltac inv_bind_as H Hs a :=
  let s := fresh "s" in
  apply bind_inv_Ok in H as (a & s & Hs & H).

(** The same, naming also the state it returned in. *)
Ltac inv_bind_at H Hs a s :=
  apply bind_inv_Ok in H as (a & s & Hs & H).

(** A primitive step determines its result and final state. *)
Ltac inv_step H :=
  unfold lift, modify, ret, get, gets in H;
  first [ injection H as <- <- | injection H as <- | idtac ].

Lemma checkBidirectionalMergeMode_inv {S} (value : option string) (s s' : S) u :
  checkBidirectionalMergeMode value s = (s', Ok u) ->
  s' = s /\ (value = None \/ exists m, value = Some m
                                       /\ m ∈ VALID_BIDIRECTIONAL_MERGE_MODES).
Proof.
  unfold checkBidirectionalMergeMode, checkStringTypeUnionValue.
  destruct value as [m|].
  - case_bool_decide as Hin; unfold ret, throw; intros H; [| discriminate].
    injection H as <- _. eauto.
  - unfold ret. intros H. injection H as <- _. eauto.
Qed.

Lemma checkBidirectionalMergeMode_invalid {S} (m : string) (s : S) :
  m ∉ VALID_BIDIRECTIONAL_MERGE_MODES ->
  checkBidirectionalMergeMode (Some m) s
  = (s, Err (ValueError (m +:+ " is not a valid BidirectionalMergeMode."))).
Proof.
  intros H. unfold checkBidirectionalMergeMode, checkStringTypeUnionValue.
  by rewrite bool_decide_eq_false_2.
Qed.

(** What a construction that returns has done. *)
Lemma Bidirectional_constructor_inv env config this0 this :
  Bidirectional_constructor env config this0 = (this, Ok tt) ->
  exists this1 forward backward,
    Layer_constructor env config this0 = (this1, Ok tt)
    /\ deserialize env (l_className (cfg_layer config))
         (l_config (cfg_layer config)) = Ok forward
    /\ deserialize env (l_className (cfg_layer config))
         (<["goBackwards" := CBool (flip_goBackwards (l_config (cfg_layer config)))]>
            (l_config (cfg_layer config))) = Ok backward
    /\ (cfg_mergeMode config = None
        \/ exists m, cfg_mergeMode config = Some m
                     /\ m ∈ VALID_BIDIRECTIONAL_MERGE_MODES)
    /\ cfg_weights config = None
    /\ this =
       {| wrapper :=
            {| layer := Some (cfg_layer config);
               built := built (wrapper this1);
               inputSpec := l_inputSpec (cfg_layer config);
               supportsMasking := true;
               _stateful := l_stateful (cfg_layer config);
               baseConfig := baseConfig (wrapper this1) |};
          forwardLayer := Some (set_l_name ("forward_" +:+ l_name forward) forward);
          backwardLayer := Some (set_l_name ("backward_" +:+ l_name backward) backward);
          mergeMode := cfg_mergeMode config;
          returnSequences := l_returnSequences (cfg_layer config);
          returnState := l_returnState (cfg_layer config);
          numConstants := None;
          _trainable := Some true |}.
Proof.
  intros H. unfold Bidirectional_constructor, Wrapper_constructor in H.
  inv_bind H Hw. inv_bind Hw Hsuper. destruct a0. inv_step Hw.
  inv_bind H Hf. unfold lift in Hf.
  destruct (deserialize env _ (l_config (cfg_layer config))) as [forward|] eqn:Hfwd;
    [| discriminate].
  injection Hf as <- <-.
  inv_bind H Hsf. inv_step Hsf.
  inv_bind H Hb. unfold lift in Hb.
  destruct (deserialize env _ (<[_ := _]> _)) as [backward|] eqn:Hbwd;
    [| discriminate].
  injection Hb as <- <-.
  inv_bind H Hsb. inv_step Hsb.
  inv_bind H Hnf. unfold on_forwardLayer, zoom in Hnf. simpl in Hnf. inv_step Hnf.
  inv_bind H Hnb. unfold on_backwardLayer, zoom in Hnb. simpl in Hnb. inv_step Hnb.
  inv_bind H Hcheck. apply checkBidirectionalMergeMode_inv in Hcheck as [-> Hmode].
  inv_bind H Hmm. inv_step Hmm.
  destruct (cfg_weights config) eqn:Hweights; [discriminate |].
  inv_bind H H1. unfold on_wrapper, zoom in H1. simpl in H1. inv_step H1.
  inv_bind H H2. inv_step H2.
  inv_bind H H3. inv_step H3.
  inv_bind H H4. unfold on_wrapper, zoom in H4. simpl in H4. inv_step H4.
  inv_bind H H5. inv_step H5.
  inv_bind H H6. unfold on_wrapper, zoom in H6. simpl in H6. inv_step H6.
  inv_step H.
  eexists _, forward, backward.
  split; [exact Hsuper |].
  repeat split; assumption.
Qed.

Lemma flip_goBackwards_negb (layerConfig : ConfigDict) :
  flip_goBackwards layerConfig = negb (config_flag "goBackwards" layerConfig).
Proof.
  unfold flip_goBackwards, config_flag.
  destruct (layerConfig !! "goBackwards") as [[| [|] | | | |]|]; reflexivity.
Qed.

(** C6.  After a construction, the forward clone is the layer the
    registry builds from the supplied layer's class name and unchanged
    configuration; the backward clone is the one it builds from that
    configuration with [goBackwards] replaced by the negation of "the
    supplied flag is [true]": [true] gives [false], anything else (also
    an absent flag) gives [true].  No other key differs. *)
Theorem Bidirectional_constructor_goBackwards (env : Env)
    (config : BidirectionalLayerConfig) (this : Bidirectional) :
  new_Bidirectional env config = (this, Ok tt) ->
  let layerConfig := l_config (cfg_layer config) in
  let className := l_className (cfg_layer config) in
  let backwardConfig :=
    <["goBackwards" := CBool (negb (config_flag "goBackwards" layerConfig))]>
      layerConfig in
  exists forward backward,
    deserialize env className layerConfig = Ok forward
    /\ deserialize env className backwardConfig = Ok backward
    /\ forwardLayer this = Some (set_l_name ("forward_" +:+ l_name forward) forward)
    /\ backwardLayer this
       = Some (set_l_name ("backward_" +:+ l_name backward) backward)
    /\ backwardConfig !! "goBackwards"
       = Some (CBool (negb (config_flag "goBackwards" layerConfig)))
    /\ forall key, key <> "goBackwards" ->
         backwardConfig !! key = layerConfig !! key.
Proof.
  intros H layerConfig className backwardConfig.
  apply Bidirectional_constructor_inv in H
    as (this1 & forward & backward & _ & Hf & Hb & _ & _ & ->).
  rewrite flip_goBackwards_negb in Hb.
  exists forward, backward.
  split; [exact Hf |]. split; [exact Hb |].
  split; [reflexivity |]. split; [reflexivity |].
  split.
  - subst backwardConfig. apply lookup_insert_eq.
  - intros key Hkey. subst backwardConfig. by apply lookup_insert_ne.
Qed.

Lemma demo_bidirectional_constructed :
  new_Bidirectional demo_env (demo_config (Some "concat"))
  = (demo_bidirectional, Ok tt).
Proof. reflexivity. Qed.

Lemma Bidirectional_constructor_goBackwards_witness :
  (config_flag "goBackwards" <$> (l_config <$> forwardLayer demo_bidirectional))
    = Some false
  /\ (config_flag "goBackwards" <$> (l_config <$> backwardLayer demo_bidirectional))
    = Some true.
Proof.
  destruct (Bidirectional_constructor_goBackwards demo_env
              (demo_config (Some "concat")) demo_bidirectional)
    as (forward & backward & Hf & Hb & -> & -> & _); [reflexivity |].
  injection Hf as <-. injection Hb as <-.
  split; reflexivity.
Defined.

(** C10.  Right after a construction the [trainable] getter returns
    [true], whatever the supplied layer's own flag and whatever the base
    constructor did; and the getter does not look at the clones:
    replacing them by anything leaves its result unchanged. *)
Theorem Bidirectional_trainable_after_construction (env : Env)
    (config : BidirectionalLayerConfig) (this : Bidirectional) :
  new_Bidirectional env config = (this, Ok tt) ->
  Bidirectional_trainable this = Some true
  /\ forall forward backward,
       Bidirectional_trainable
         (set_forwardLayer forward (set_backwardLayer backward this))
       = Bidirectional_trainable this.
Proof.
  intros H.
  apply Bidirectional_constructor_inv in H
    as (this1 & forward & backward & _ & _ & _ & _ & _ & ->).
  split; [reflexivity |]. intros; reflexivity.
Qed.

Lemma Bidirectional_trainable_after_construction_witness :
  l_trainable (cfg_layer (demo_config (Some "concat"))) = false
  /\ Bidirectional_trainable demo_bidirectional = Some true.
Proof.
  split; [reflexivity |].
  apply (Bidirectional_trainable_after_construction demo_env
           (demo_config (Some "concat")) demo_bidirectional).
  reflexivity.
Defined.

(** C2, as the code has it.  With a merge mode outside the enumeration,
    and the base constructor and the two clonings having succeeded, the
    construction throws the validation error; at that point both clones
    have been created, stored and named, and [mergeMode] has not been
    assigned. *)
Theorem Bidirectional_constructor_invalid_mergeMode (env : Env)
    (config : BidirectionalLayerConfig) (this0 this1 : Bidirectional)
    (forward backward : Layer) (m : string) :
  cfg_mergeMode config = Some m ->
  m ∉ VALID_BIDIRECTIONAL_MERGE_MODES ->
  Layer_constructor env config this0 = (this1, Ok tt) ->
  deserialize env (l_className (cfg_layer config)) (l_config (cfg_layer config))
    = Ok forward ->
  deserialize env (l_className (cfg_layer config))
    (<["goBackwards" := CBool (flip_goBackwards (l_config (cfg_layer config)))]>
       (l_config (cfg_layer config))) = Ok backward ->
  exists this,
    Bidirectional_constructor env config this0
      = (this, Err (ValueError (m +:+ " is not a valid BidirectionalMergeMode.")))
    /\ forwardLayer this = Some (set_l_name ("forward_" +:+ l_name forward) forward)
    /\ backwardLayer this
       = Some (set_l_name ("backward_" +:+ l_name backward) backward)
    /\ mergeMode this = mergeMode this1.
Proof.
  intros Hm Hinvalid Hsuper Hf Hb.
  eexists. split.
  - unfold Bidirectional_constructor, Wrapper_constructor.
    erewrite bind_Ok; last first.
    { erewrite bind_Ok by exact Hsuper. reflexivity. }
    erewrite bind_Ok by (unfold lift; rewrite Hf; reflexivity).
    erewrite bind_Ok by reflexivity.
    erewrite bind_Ok by (unfold lift; rewrite Hb; reflexivity).
    erewrite bind_Ok by reflexivity.
    erewrite bind_Ok by reflexivity.
    erewrite bind_Ok by reflexivity.
    rewrite Hm.
    erewrite bind_Err; [reflexivity |].
    by apply checkBidirectionalMergeMode_invalid.
  - simpl. auto.
Qed.

Lemma Bidirectional_constructor_invalid_mergeMode_witness :
  exists this msg,
    new_Bidirectional demo_env (demo_config (Some "xyz"))
      = (this, Err (ValueError msg))
    /\ l_name <$> forwardLayer this = Some "forward_simple_rnn_1"
    /\ l_name <$> backwardLayer this = Some "backward_simple_rnn_1".
Proof.
  destruct (Bidirectional_constructor_invalid_mergeMode demo_env
              (demo_config (Some "xyz")) blank_Bidirectional
              (set__trainable (Some false) blank_Bidirectional)
              (demo_clone "SimpleRNN" (l_config demo_rnn))
              (demo_clone "SimpleRNN"
                 (<["goBackwards" := CBool true]> (l_config demo_rnn)))
              "xyz")
    as (this & Hrun & Hf & Hb & _).
  - reflexivity.
  - apply (bool_decide_eq_false_1 ("xyz" ∈ VALID_BIDIRECTIONAL_MERGE_MODES)).
    reflexivity.
  - reflexivity.
  - reflexivity.
  - reflexivity.
  - exists this, "xyz is not a valid BidirectionalMergeMode.".
    split; [exact Hrun |]. rewrite Hf, Hb. split; reflexivity.
Defined.

(** C2, as stated, fails: with the merge mode ["xyz"] the construction
    does not stop before the clones exist. *)
Lemma invalid_mergeMode_is_checked_after_cloning :
  cfg_mergeMode (demo_config (Some "xyz")) = Some "xyz"
  /\ ("xyz" ∉ VALID_BIDIRECTIONAL_MERGE_MODES)
  /\ ~ (exists this e,
          new_Bidirectional demo_env (demo_config (Some "xyz")) = (this, Err e)
          /\ forwardLayer this = None /\ backwardLayer this = None).
Proof.
  split; [reflexivity |].
  split.
  { apply (bool_decide_eq_false_1 ("xyz" ∈ VALID_BIDIRECTIONAL_MERGE_MODES)).
    reflexivity. }
  intros (this & e & Hrun & Hf & _).
  assert (Hclone : forwardLayer (fst (new_Bidirectional demo_env
                                        (demo_config (Some "xyz")))) <> None)
    by (vm_compute; discriminate).
  rewrite Hrun in Hclone. simpl in Hclone. contradiction.
Qed.

(** ** What a method leaves unchanged *)

Section Preservation.

Context {S : Type} (R : S -> S -> Prop).
Context (R_refl : forall s, R s s).
Context (R_trans : forall s1 s2 s3, R s1 s2 -> R s2 s3 -> R s1 s3).

Lemma preserves_ret {A} (a : A) : preserves R (ret a).
Proof. intros s. apply R_refl. Qed.

Lemma preserves_throw {A} e : preserves R (@throw S A e).
Proof. intros s. apply R_refl. Qed.

Lemma preserves_lift {A} (r : result A) : preserves R (lift r).
Proof. intros s. apply R_refl. Qed.

Lemma preserves_gets {A} (f : S -> A) : preserves R (gets f).
Proof. intros s. apply R_refl. Qed.

Lemma preserves_get : preserves R get.
Proof. intros s. apply R_refl. Qed.

Lemma preserves_modify (f : S -> S) :
  (forall s, R s (f s)) -> preserves R (modify f).
Proof. intros H s. apply H. Qed.

Lemma preserves_bind {A B} (m : M S A) (k : A -> M S B) :
  preserves R m -> (forall a, preserves R (k a)) -> preserves R (bind m k).
Proof.
  intros Hm Hk s. unfold bind. specialize (Hm s).
  destruct (m s) as [s1 [a|e]]; simpl in *.
  - eapply R_trans; [exact Hm | apply Hk].
  - exact Hm.
Qed.

Lemma preserves_mapM {A B} (f : A -> M S B) (xs : list A) :
  (forall x, preserves R (f x)) -> preserves R (mapM f xs).
Proof.
  intros Hf. induction xs as [|x xs IH]; simpl.
  - apply preserves_ret.
  - apply preserves_bind; [apply Hf | intros y].
    apply preserves_bind; [apply IH | intros ys]. apply preserves_ret.
Qed.

End Preservation.

Lemma preserves_run {S A} (R : S -> S -> Prop) (m : M S A) s s' r :
  preserves R m -> m s = (s', r) -> R s s'.
Proof. intros H Hrun. specialize (H s). by rewrite Hrun in H. Qed.

(** A method of the receiver run from [apply] or [call] touches neither
    [kwargs] nor the array counter. *)
Lemma on_self_frame {A} (m : M Bidirectional A) (w : Invocation) :
  kwargs (fst (on_self m w)) = kwargs w
  /\ nextArray (fst (on_self m w)) = nextArray w.
Proof. unfold on_self, zoom. simpl. by destruct (m (self w)). Qed.

(** Work on a clone leaves the inherited part of the wrapper alone. *)
Lemma on_forwardLayer_wrapper {A} (m : M Layer A) (this : Bidirectional) :
  wrapper (fst (on_forwardLayer m this)) = wrapper this.
Proof.
  unfold on_forwardLayer, zoom. destruct (forwardLayer this) as [l|]; [| done].
  by destruct (m l).
Qed.

Lemma on_backwardLayer_wrapper {A} (m : M Layer A) (this : Bidirectional) :
  wrapper (fst (on_backwardLayer m this)) = wrapper this.
Proof.
  unfold on_backwardLayer, zoom. destruct (backwardLayer this) as [l|]; [| done].
  by destruct (m l).
Qed.

Lemma on_self_self {A} (m : M Bidirectional A) (w : Invocation) :
  self (fst (on_self m w)) = fst (m (self w)).
Proof. unfold on_self, zoom. simpl. by destruct (m (self w)). Qed.

(** ** [apply]: the input specification *)

Lemma mapM_shape_specs {S} (items : list TVal) (s s' : S) specs :
  mapM (fun state => shape <- shape_of state ;; ret (new_InputSpec shape)) items s
    = (s', Ok specs) ->
  specs = spec_of_state <$> items /\ s' = s.
Proof.
  revert s s' specs. induction items as [|state items IH]; intros s s' specs H.
  - simpl in H. inv_step H. done.
  - simpl in H. inv_bind H Hspec. inv_bind Hspec Hshape.
    inv_bind H Hrest. apply IH in Hrest as [-> ->].
    inv_step H. inv_step Hspec.
    destruct state; simpl in Hshape; unfold ret, throw in Hshape;
      [discriminate | | ]; injection Hshape as <- <-; done.
Qed.

(** Lines 381-425 do not touch the inherited part of the receiver, so
    not its [inputSpec]. *)
Lemma Bidirectional_apply_prepare_wrapper env inputs :
  preserves (fun w w' => wrapper (self w') = wrapper (self w))
    (Bidirectional_apply_prepare env inputs).
Proof.
  assert (Hrefl : forall w : Invocation, wrapper (self w) = wrapper (self w))
    by done.
  assert (Htrans : forall w1 w2 w3 : Invocation,
             wrapper (self w2) = wrapper (self w1) ->
             wrapper (self w3) = wrapper (self w2) ->
             wrapper (self w3) = wrapper (self w1)) by (intros; congruence).
  unfold Bidirectional_apply_prepare.
  apply preserves_bind; [done | by apply preserves_gets | intros kw].
  apply preserves_bind; [done | by apply preserves_gets | intros this].
  apply preserves_bind; [done | by apply preserves_lift | intros std].
  apply preserves_bind; [done | | intros unpacked].
  { destruct (std_inputs std); try by apply preserves_ret.
    apply preserves_bind; [done | intros w; done | intros a].
    by apply preserves_ret. }
  match goal with |- preserves _ (if ?c then _ else _) => destruct c end;
    [by apply preserves_ret |].
  apply preserves_bind; [done | | intros additional].
  { destruct (snd unpacked) as [a|]; [| by apply preserves_ret].
    case_bool_decide; [by apply preserves_throw |].
    apply preserves_bind; [done | intros w; done | intros _].
    apply preserves_bind; [done | | intros stateSpecs].
    { apply preserves_mapM; [done | done | intros state].
      apply preserves_bind; [done | | intros shape; by apply preserves_ret].
      destruct state; simpl;
        first [by apply preserves_ret | by apply preserves_throw]. }
    apply preserves_bind; [done | | intros _].
    { intros w. rewrite on_self_self. apply on_forwardLayer_wrapper. }
    apply preserves_bind; [done | | intros _; by apply preserves_ret].
    intros w. rewrite on_self_self. apply on_backwardLayer_wrapper. }
  destruct (std_constants std);
    first [by apply preserves_ret | by apply preserves_throw].
Qed.

(** The specifications collected by lines 381-425 are those of the
    additional inputs, one each. *)
Lemma Bidirectional_apply_prepare_specs env inputs w w1 x additionalInputs additionalSpecs :
  Bidirectional_apply_prepare env inputs w
    = (w1, Ok (Additional x additionalInputs additionalSpecs)) ->
  additionalSpecs = spec_of_state <$> additionalInputs.
Proof.
  intros H. unfold Bidirectional_apply_prepare in H.
  inv_bind H Hkw. inv_bind H Hthis. inv_bind_as H Hstd std.
  inv_bind_as H Hunpack unpacked.
  match type of H with (if ?c then _ else _) _ = _ => destruct c end;
    [inv_step H; discriminate |].
  inv_bind_as H Hadd additional.
  destruct (std_constants std); [discriminate |].
  unfold ret in H. simplify_eq/=.
  destruct (snd unpacked) as [states|]; [| unfold ret in Hadd; by simplify_eq/=].
  case_bool_decide; [discriminate |].
  inv_bind Hadd Hassign. inv_bind_as Hadd Hspecs stateSpecs.
  apply mapM_shape_specs in Hspecs as [-> _].
  inv_bind Hadd Hf. inv_bind Hadd Hb. unfold ret in Hadd. by simplify_eq/=.
Qed.

(** C4.  When the states collected by [apply] are symbolic, [apply]
    runs the underlying [Layer.apply] on the receiver with [inputSpec]
    widened by the specifications of the states (one per state, built
    from its shape) and, once that call has returned, puts back the
    [inputSpec] the receiver had before [apply] was called. *)
Theorem Bidirectional_apply_restores_inputSpec (env : Env) (inputs : TVal)
    (w w1 w' : Invocation) (x : TVal) (additionalInputs : list TVal)
    (additionalSpecs : list InputSpec) (output : TVal) :
  Bidirectional_apply_prepare env inputs w
    = (w1, Ok (Additional x additionalInputs additionalSpecs)) ->
  instanceof_SymbolicTensor (js_nth additionalInputs 0) = true ->
  Bidirectional_apply env inputs w = (w', Ok output) ->
  let original := inputSpec (wrapper (self w)) in
  let widened := original ++ (spec_of_state <$> additionalInputs) in
  exists w2,
    Layer_apply env (VList (x :: additionalInputs)) (with_inputSpec widened w1)
      = (w2, Ok output)
    /\ inputSpec (wrapper (self (with_inputSpec widened w1))) = widened
    /\ w' = with_inputSpec original w2
    /\ inputSpec (wrapper (self w')) = original.
Proof.
  intros Hprep Hsym Happly original widened.
  pose proof (preserves_run _ _ _ _ _
                (Bidirectional_apply_prepare_wrapper env inputs) Hprep) as Hw.
  simpl in Hw.
  pose proof (Bidirectional_apply_prepare_specs _ _ _ _ _ _ _ Hprep) as ->.
  unfold Bidirectional_apply in Happly.
  rewrite (bind_Ok _ _ _ _ _ Hprep) in Happly.
  unfold Bidirectional_apply_finish in Happly.
  destruct (existsb _ additionalInputs); [discriminate |].
  rewrite Hsym in Happly.
  inv_bind Happly Hthis. inv_step Hthis.
  inv_bind Happly Hwiden.
  unfold on_self, on_wrapper, zoom, modify in Hwiden. simpl in Hwiden.
  injection Hwiden as <- _.
  inv_bind_at Happly Hsuper out w2.
  inv_bind Happly Hrestore.
  unfold on_self, on_wrapper, zoom, modify in Hrestore. simpl in Hrestore.
  injection Hrestore as <- _.
  inv_step Happly.
  subst original widened. unfold with_inputSpec. rewrite Hw in *.
  exists w2. split; [exact Hsuper |].
  split; [reflexivity |].
  split; reflexivity.
Qed.

Lemma Bidirectional_apply_restores_inputSpec_witness :
  inputSpec (wrapper (self (fst (Bidirectional_apply demo_env demo_symbolic_inputs
                                   demo_symbolic_call))))
  = inputSpec (wrapper demo_bidirectional).
Proof.
  destruct (Bidirectional_apply_restores_inputSpec demo_env demo_symbolic_inputs
              demo_symbolic_call
              (fst (Bidirectional_apply_prepare demo_env demo_symbolic_inputs
                      demo_symbolic_call))
              (fst (Bidirectional_apply demo_env demo_symbolic_inputs
                      demo_symbolic_call))
              (demo_symbolic "x")
              [demo_symbolic "h_forward"; demo_symbolic "h_backward"]
              [spec_of_state (demo_symbolic "h_forward");
               spec_of_state (demo_symbolic "h_backward")]
              demo_symbolic_inputs)
    as (w2 & _ & _ & _ & Hrestored).
  - vm_compute. reflexivity.
  - reflexivity.
  - vm_compute. reflexivity.
  - exact Hrestored.
Defined.

(** When the underlying [Layer.apply] throws instead, nothing puts the
    original specification back: the receiver keeps the [inputSpec]
    that call left, in the state that call left. *)
Lemma Bidirectional_apply_finish_on_throw env x additionalInputs additionalSpecs
    (w1 w2 : Invocation) e :
  existsb (fun tensor =>
             negb (eqb (instanceof_SymbolicTensor tensor)
                       (instanceof_SymbolicTensor (js_nth additionalInputs 0))))
          additionalInputs = false ->
  instanceof_SymbolicTensor (js_nth additionalInputs 0) = true ->
  Layer_apply env (VList (x :: additionalInputs))
    (with_inputSpec (inputSpec (wrapper (self w1)) ++ additionalSpecs) w1)
    = (w2, Err e) ->
  Bidirectional_apply_finish env x additionalInputs additionalSpecs w1
    = (w2, Err e).
Proof.
  intros Hmix Hsym Hsuper. unfold Bidirectional_apply_finish.
  rewrite Hmix, Hsym.
  erewrite bind_Ok by reflexivity.
  erewrite bind_Ok by reflexivity.
  erewrite bind_Err; [reflexivity | exact Hsuper].
Qed.

(** ** [call]: the two directional runs and the options object *)

(** A method of the forward clone that returned, seen from [call]. *)
Lemma on_self_forwardLayer_inv {A} (m : M Layer A) (w w' : Invocation) (x : A) :
  on_self (on_forwardLayer m) w = (w', Ok x) ->
  exists forward forward',
    forwardLayer (self w) = Some forward
    /\ m forward = (forward', Ok x)
    /\ w' = set_self (set_forwardLayer (Some forward') (self w)) w.
Proof.
  unfold on_self, on_forwardLayer, zoom. simpl.
  destruct (forwardLayer (self w)) as [forward|]; [| discriminate].
  destruct (m forward) as [forward' r] eqn:Hm. intros H.
  injection H as <- ->. eauto.
Qed.

(** Collecting states, reversing and merging change nothing in the
    state: they only compute. *)
Lemma Bidirectional_call_merge_pure env this y yRev :
  preserves (fun w w' : Invocation => w' = w)
    (Bidirectional_call_merge env this y yRev).
Proof.
  assert (Htrans : forall w1 w2 w3 : Invocation, w2 = w1 -> w3 = w2 -> w3 = w1)
    by (intros; congruence).
  unfold Bidirectional_call_merge.
  apply preserves_bind; [done | | intros collected].
  { destruct (returnState this); [| by apply preserves_ret].
    apply preserves_bind; [done | | intros states].
    { destruct y; try by apply preserves_ret.
      apply preserves_bind; [done | | intros tail; by apply preserves_ret].
      destruct yRev; simpl;
        first [by apply preserves_ret | by apply preserves_throw
              | by apply preserves_lift]. }
    apply preserves_bind; [done | | intros y0].
    { destruct y; simpl; first [by apply preserves_ret | by apply preserves_throw]. }
    apply preserves_bind; [done | | intros yRev0; by apply preserves_ret].
    destruct yRev; simpl; first [by apply preserves_ret | by apply preserves_throw]. }
  apply preserves_bind; [done | | intros yRev'].
  { destruct (returnSequences this);
      first [by apply preserves_ret | by apply preserves_lift]. }
  apply preserves_bind; [done | | intros output].
  { repeat case_bool_decide;
      try first [by apply preserves_ret | by apply preserves_lift].
    apply preserves_bind; [done | by apply preserves_lift | intros s].
    by apply preserves_lift. }
  destruct (returnState this); [| by apply preserves_ret].
  case_bool_decide; [| by apply preserves_ret].
  destruct output; first [by apply preserves_ret | by apply preserves_throw].
Qed.

(** Lines 474-481 step by step.  With an initial state list in
    [kwargs], a run of the two directions that returns has: made the two
    halves as new arrays; written the forward half into [kwargs] and
    called the forward clone; written the backward half into the same
    [kwargs] and called the forward clone again, in the state the first
    call left it.  The backward clone is not used. *)
Lemma Bidirectional_call_directions_with_state env inputs (w w' : Invocation)
    (a : Arr) (ys : TVal * TVal) :
  kw_get "initialState" (kwargs w) = KArray a ->
  Bidirectional_call_directions env inputs w = (w', Ok ys) ->
  let forwardState :=
    {| arr_id := nextArray w;
       arr_items := take (length (arr_items a) / 2) (arr_items a) |} in
  let backwardState :=
    {| arr_id := Pos.succ (nextArray w);
       arr_items := drop (length (arr_items a) / 2) (arr_items a) |} in
  let kw1 := Object_assign (kwargs w) {[ "initialState" := KArray forwardState ]} in
  let kw2 := Object_assign kw1 {[ "initialState" := KArray backwardState ]} in
  exists forward forward1 forward2,
    forwardLayer (self w) = Some forward
    /\ layer_call env inputs kw1 forward = (forward1, Ok (fst ys))
    /\ layer_call env inputs kw2 forward1 = (forward2, Ok (snd ys))
    /\ kwargs w' = kw2
    /\ forwardLayer (self w') = Some forward2
    /\ backwardLayer (self w') = backwardLayer (self w).
Proof.
  intros Hinit H. unfold Bidirectional_call_directions in H.
  inv_bind H Hkw. inv_step Hkw. rewrite Hinit in H.
  inv_bind H Hfs. unfold new_Array in Hfs. injection Hfs as <- <-.
  inv_bind H Hbs. unfold new_Array in Hbs. injection Hbs as <- <-.
  inv_bind H Hrecv1.
  apply on_self_forwardLayer_inv in Hrecv1 as (forward & ? & Hf & Hget & ->).
  inv_step Hget.
  inv_bind H Hassign1. unfold assign_kwargs in Hassign1. inv_step Hassign1.
  inv_bind H Hkw1. inv_step Hkw1.
  inv_bind_as H Hcall1 y.
  apply on_self_forwardLayer_inv in Hcall1 as (? & forward1 & Hf1 & Hcall1 & ->).
  simpl in Hf1. injection Hf1 as <-.
  inv_bind H Hrecv2.
  apply on_self_forwardLayer_inv in Hrecv2 as (? & ? & Hf2 & Hget2 & ->).
  simpl in Hf2. injection Hf2 as <-. inv_step Hget2.
  inv_bind H Hassign2. unfold assign_kwargs in Hassign2. inv_step Hassign2.
  inv_bind H Hkw2. inv_step Hkw2.
  inv_bind_as H Hcall2 yRev.
  apply on_self_forwardLayer_inv in Hcall2 as (? & forward2 & Hf3 & Hcall2 & ->).
  simpl in Hf3. injection Hf3 as <-.
  inv_step H.
  exists forward, forward1, forward2. simpl.
  split; [exact Hf |]. split; [exact Hcall1 |]. split; [exact Hcall2 |].
  done.
Qed.

(** C9.  A [call] that finds an initial state list in [kwargs] (an
    array made before the call, so with an identity below the counter)
    and returns has changed the caller's [kwargs]: ['initialState'] no
    longer holds the supplied array but a new one (another array
    object), whose elements are the backward half of the supplied list;
    with two or more states its contents differ from the supplied list
    as well.  The other options are as they were. *)
Theorem Bidirectional_call_leaves_backward_half_in_kwargs (env : Env)
    (inputs output : TVal) (w w' : Invocation) (initialState : Arr) :
  kwargs w !! "initialState" = Some (KArray initialState) ->
  (arr_id initialState < nextArray w)%positive ->
  Bidirectional_call env inputs w = (w', Ok output) ->
  exists backwardState,
    kwargs w' !! "initialState" = Some (KArray backwardState)
    /\ arr_id backwardState <> arr_id initialState
    /\ arr_items backwardState
       = drop (length (arr_items initialState) / 2) (arr_items initialState)
    /\ (2 <= length (arr_items initialState) ->
        arr_items backwardState <> arr_items initialState)
    /\ forall key, key <> "initialState" -> kwargs w' !! key = kwargs w !! key.
Proof.
  intros Hinit Hfresh H. unfold Bidirectional_call in H.
  inv_bind H Hkw. inv_step Hkw.
  destruct (negb _); [discriminate |].
  inv_bind_at H Hdir ys w1. inv_bind H Hthis. inv_step Hthis.
  pose proof (preserves_run _ _ _ _ _
                (Bidirectional_call_merge_pure env _ _ _) H) as Hpure.
  simpl in Hpure. subst w'.
  assert (Hget : kw_get "initialState" (kwargs w) = KArray initialState)
    by (unfold kw_get; by rewrite Hinit).
  destruct (Bidirectional_call_directions_with_state _ _ _ _ _ _ Hget Hdir)
    as (forward & forward1 & forward2 & _ & _ & _ & Hkwargs & _ & _).
  rewrite Hkwargs.
  eexists. split.
  { rewrite Object_assign_lookup. by rewrite lookup_singleton_eq. }
  cbn [arr_id arr_items]. split; [lia |]. split; [reflexivity |]. split.
  - intros Hlen Heq. apply (f_equal length) in Heq.
    rewrite length_drop in Heq.
    assert (Hpos : 0 < length (arr_items initialState) / 2)
      by (apply Nat.div_str_pos; lia).
    revert Heq Hpos. generalize (length (arr_items initialState) / 2).
    intros k Heq Hpos. lia.
  - intros key Hkey. rewrite !Object_assign_lookup.
    by rewrite !lookup_singleton_ne.
Qed.

Lemma Bidirectional_call_leaves_backward_half_in_kwargs_witness :
  exists backwardState,
    kwargs (fst (Bidirectional_call demo_env demo_input demo_stateful_call))
      !! "initialState" = Some (KArray backwardState)
    /\ arr_id backwardState <> arr_id demo_initialState
    /\ arr_items backwardState = [demo_state 20].
Proof.
  destruct (Bidirectional_call_leaves_backward_half_in_kwargs demo_env
              demo_input
              (VList [VTensor (Concrete [] [0%Z; 1%Z]);
                      VTensor (Concrete [] [0%Z; 1%Z])])
              demo_stateful_call
              (fst (Bidirectional_call demo_env demo_input demo_stateful_call))
              demo_initialState)
    as (backwardState & Hlook & Hid & Hitems & _).
  - reflexivity.
  - reflexivity.
  - vm_compute. reflexivity.
  - exists backwardState. split; [exact Hlook |]. split; [exact Hid |].
    rewrite Hitems. reflexivity.
Defined.

(** C1 does not hold of the code.  With an initial state list, line 479
    computes the backward output with [this.forwardLayer.call], not with
    [this.backwardLayer.call].  On [demo_stateful_call] (two initial
    states; the forward clone has [goBackwards] false, the backward
    clone has it true; an output records the flag of the clone that
    produced it and the number of states it received): the backward
    output is what the forward clone returns on the last state, and
    differs from what the backward clone returns on it. *)
Theorem Bidirectional_call_backward_output_from_forwardLayer :
  exists w' y yRev forward backward,
    Bidirectional_call_directions demo_env demo_input demo_stateful_call
      = (w', Ok (y, yRev))
    /\ forwardLayer (self demo_stateful_call) = Some forward
    /\ backwardLayer (self demo_stateful_call) = Some backward
    /\ kwargs w' !! "initialState"
       = Some (KArray {| arr_id := 3; arr_items := [demo_state 20] |})
    /\ y = VTensor (Concrete [] [0%Z; 1%Z])
    /\ yRev = VTensor (Concrete [] [0%Z; 1%Z])
    /\ snd (layer_call demo_env demo_input (kwargs w') forward) = Ok yRev
    /\ snd (layer_call demo_env demo_input (kwargs w') backward)
       = Ok (VTensor (Concrete [] [1%Z; 1%Z])).
Proof.
  eexists _, _, _, _, _.
  split; [vm_compute; reflexivity |].
  split; [reflexivity |]. split; [reflexivity |].
  repeat split; vm_compute; reflexivity.
Qed.

(** * Further properties *)

(** ** [TimeDistributed.build] on a shape of rank 3 or more *)

Lemma TimeDistributed_build_admitted_shape env (this : TimeDistributed) arg
    (b t f : Dim) (fs : Shape) (l : Layer) :
  getExactlyOneShape env arg = Ok (b :: t :: f :: fs) ->
  layer this = Some l ->
  TimeDistributed_build env arg this =
    ((if negb (l_built l) then
        on_layer (layer_build env (OneShape (b :: f :: fs))) ;;
        on_layer (modify (set_l_built true))
      else ret tt) ;;
     Wrapper_build (OneShape (b :: t :: f :: fs)))
      (set_inputSpec [shape_literal (b :: t :: f :: fs)] this).
Proof.
  intros Hone Hl. unfold TimeDistributed_build.
  rewrite (bind_Ok _ _ this this (b :: t :: f :: fs))
    by (unfold lift; by rewrite Hone).
  rewrite bool_decide_eq_false_2 by (simpl; lia).
  erewrite bind_Ok by reflexivity.
  erewrite bind_Ok by (by apply on_layer_get).
  reflexivity.
Qed.

(** X1.  On an input shape [b; t; f1; ...] and a wrapped layer that is
    not built yet, [build] builds that layer on [b; f1; ...], the shape
    without its time axis, marks it built, records the full input shape
    as its own input specification and marks itself built. *)
Theorem TimeDistributed_build_builds_wrapped_layer (env : Env)
    (this : TimeDistributed) (arg : ShapeArg) (b t f : Dim) (fs : Shape)
    (l l' : Layer) :
  getExactlyOneShape env arg = Ok (b :: t :: f :: fs) ->
  layer this = Some l ->
  l_built l = false ->
  layer_build env (OneShape (b :: f :: fs)) l = (l', Ok tt) ->
  TimeDistributed_build env arg this =
    ({| layer := Some (set_l_built true l');
        built := true;
        inputSpec := [shape_literal (b :: t :: f :: fs)];
        supportsMasking := supportsMasking this;
        _stateful := _stateful this;
        baseConfig := baseConfig this |}, Ok tt).
Proof.
  intros Hone Hl Hnot Hbuild.
  rewrite (TimeDistributed_build_admitted_shape env this arg b t f fs l Hone Hl).
  rewrite Hnot. simpl negb. cbv iota.
  unfold bind, on_layer, zoom, Wrapper_build, modify. simpl.
  rewrite Hl, Hbuild. reflexivity.
Qed.

Lemma TimeDistributed_build_builds_wrapped_layer_witness :
  exists this,
    TimeDistributed_build demo_env (OneShape [DNum 32; DNum 10; DNum 16])
      demo_timeDistributed = (this, Ok tt)
    /\ built this = true
    /\ l_built <$> layer this = Some true.
Proof.
  eexists. split.
  - apply (TimeDistributed_build_builds_wrapped_layer demo_env
             demo_timeDistributed (OneShape [DNum 32; DNum 10; DNum 16])
             (DNum 32) (DNum 10) (DNum 16) [] demo_rnn demo_rnn);
      reflexivity.
  - split; reflexivity.
Defined.

(** X2.  When the wrapped layer is already built, [build] leaves it
    exactly as it is, whatever its own [build] would do, and only
    records the input specification and marks the wrapper built. *)
Theorem TimeDistributed_build_skips_built_layer (env : Env)
    (this : TimeDistributed) (arg : ShapeArg) (b t f : Dim) (fs : Shape)
    (l : Layer) :
  getExactlyOneShape env arg = Ok (b :: t :: f :: fs) ->
  layer this = Some l ->
  l_built l = true ->
  TimeDistributed_build env arg this =
    ({| layer := Some l;
        built := true;
        inputSpec := [shape_literal (b :: t :: f :: fs)];
        supportsMasking := supportsMasking this;
        _stateful := _stateful this;
        baseConfig := baseConfig this |}, Ok tt).
Proof.
  intros Hone Hl Hbuilt.
  rewrite (TimeDistributed_build_admitted_shape env this arg b t f fs l Hone Hl).
  rewrite Hbuilt. simpl negb. cbv iota.
  unfold bind, ret, Wrapper_build, modify, set_built, set_inputSpec. simpl.
  by rewrite Hl.
Qed.

Lemma TimeDistributed_build_skips_built_layer_witness :
  layer (fst (TimeDistributed_build demo_env
                (OneShape [DNum 32; DNum 10; DNum 16])
                (set_layer (Some (set_l_built true demo_rnn)) blank_Wrapper)))
  = Some (set_l_built true demo_rnn).
Proof.
  rewrite (TimeDistributed_build_skips_built_layer demo_env
             (set_layer (Some (set_l_built true demo_rnn)) blank_Wrapper)
             (OneShape [DNum 32; DNum 10; DNum 16])
             (DNum 32) (DNum 10) (DNum 16) [] (set_l_built true demo_rnn));
    reflexivity.
Defined.



(** ** Construction of a Bidirectional wrapper: the other outcomes *)

Lemma checkBidirectionalMergeMode_valid {S} (value : option string) (s : S) :
  (value = None
   \/ exists m, value = Some m /\ m ∈ VALID_BIDIRECTIONAL_MERGE_MODES) ->
  checkBidirectionalMergeMode value s = (s, Ok tt).
Proof.
  intros [-> | (m & -> & Hin)];
    unfold checkBidirectionalMergeMode, checkStringTypeUnionValue; [done |].
  by rewrite bool_decide_eq_true_2.
Qed.

(** The constructor up to and including the assignment of [mergeMode],
    when nothing before it throws. *)
Lemma Bidirectional_constructor_to_mergeMode env config this0 this1 forward backward :
  Layer_constructor env config this0 = (this1, Ok tt) ->
  deserialize env (l_className (cfg_layer config)) (l_config (cfg_layer config))
    = Ok forward ->
  deserialize env (l_className (cfg_layer config))
    (<["goBackwards" := CBool (flip_goBackwards (l_config (cfg_layer config)))]>
       (l_config (cfg_layer config))) = Ok backward ->
  (cfg_mergeMode config = None
   \/ exists m, cfg_mergeMode config = Some m
                /\ m ∈ VALID_BIDIRECTIONAL_MERGE_MODES) ->
  Bidirectional_constructor env config this0 =
    match cfg_weights config with
    | Some _ =>
        throw (NotImplementedError
          "weights support is not implemented for Bidirectional layer yet.")
    | None =>
        on_wrapper (modify (set__stateful (l_stateful (cfg_layer config)))) ;;
        modify (set_returnSequences (l_returnSequences (cfg_layer config))) ;;
        modify (set_returnState (l_returnState (cfg_layer config))) ;;
        on_wrapper (modify (set_supportsMasking true)) ;;
        modify (set__trainable (Some true)) ;;
        on_wrapper (modify (set_inputSpec (l_inputSpec (cfg_layer config)))) ;;
        modify (set_numConstants None)
    end
      {| wrapper := set_layer (Some (cfg_layer config)) (wrapper this1);
         forwardLayer := Some (set_l_name ("forward_" +:+ l_name forward) forward);
         backwardLayer := Some (set_l_name ("backward_" +:+ l_name backward) backward);
         mergeMode := cfg_mergeMode config;
         returnSequences := returnSequences this1;
         returnState := returnState this1;
         numConstants := numConstants this1;
         _trainable := _trainable this1 |}.
Proof.
  intros Hsuper Hf Hb Hmode.
  unfold Bidirectional_constructor, Wrapper_constructor.
  erewrite bind_Ok; last first.
  { erewrite bind_Ok by exact Hsuper. reflexivity. }
  erewrite bind_Ok by (unfold lift; rewrite Hf; reflexivity).
  erewrite bind_Ok by reflexivity.
  erewrite bind_Ok by (unfold lift; rewrite Hb; reflexivity).
  erewrite bind_Ok by reflexivity.
  erewrite bind_Ok by reflexivity.
  erewrite bind_Ok by reflexivity.
  erewrite bind_Ok by (by apply checkBidirectionalMergeMode_valid).
  erewrite bind_Ok by reflexivity.
  reflexivity.
Qed.

(** X4.  A construction returns normally whenever the base constructor
    and the two clonings succeed, the merge mode is absent or one of the
    four valid modes, and no [weights] are given.  The wrapper then
    holds the supplied layer, has copied [stateful], [returnSequences],
    [returnState] and the input specification from it, supports masking,
    has no [numConstants], and its clones carry the prefixed names. *)
Theorem Bidirectional_constructor_succeeds (env : Env)
    (config : BidirectionalLayerConfig) (this0 this1 : Bidirectional)
    (forward backward : Layer) :
  Layer_constructor env config this0 = (this1, Ok tt) ->
  deserialize env (l_className (cfg_layer config)) (l_config (cfg_layer config))
    = Ok forward ->
  deserialize env (l_className (cfg_layer config))
    (<["goBackwards" := CBool (flip_goBackwards (l_config (cfg_layer config)))]>
       (l_config (cfg_layer config))) = Ok backward ->
  (cfg_mergeMode config = None
   \/ exists m, cfg_mergeMode config = Some m
                /\ m ∈ VALID_BIDIRECTIONAL_MERGE_MODES) ->
  cfg_weights config = None ->
  Bidirectional_constructor env config this0 =
    ({| wrapper :=
          {| layer := Some (cfg_layer config);
             built := built (wrapper this1);
             inputSpec := l_inputSpec (cfg_layer config);
             supportsMasking := true;
             _stateful := l_stateful (cfg_layer config);
             baseConfig := baseConfig (wrapper this1) |};
        forwardLayer := Some (set_l_name ("forward_" +:+ l_name forward) forward);
        backwardLayer := Some (set_l_name ("backward_" +:+ l_name backward) backward);
        mergeMode := cfg_mergeMode config;
        returnSequences := l_returnSequences (cfg_layer config);
        returnState := l_returnState (cfg_layer config);
        numConstants := None;
        _trainable := Some true |}, Ok tt).
Proof.
  intros Hsuper Hf Hb Hmode Hweights.
  rewrite (Bidirectional_constructor_to_mergeMode env config this0 this1
             forward backward Hsuper Hf Hb Hmode).
  rewrite Hweights. reflexivity.
Qed.

Lemma Bidirectional_constructor_succeeds_witness :
  exists this,
    new_Bidirectional demo_env (demo_config None) = (this, Ok tt)
    /\ mergeMode this = None
    /\ returnSequences this = true
    /\ l_name <$> backwardLayer this = Some "backward_simple_rnn_1".
Proof.
  eexists. split.
  - apply (Bidirectional_constructor_succeeds demo_env (demo_config None)
             blank_Bidirectional
             (set__trainable (Some false) blank_Bidirectional)
             (demo_clone "SimpleRNN" (l_config demo_rnn))
             (demo_clone "SimpleRNN"
                (<["goBackwards" := CBool true]> (l_config demo_rnn))));
      [reflexivity | reflexivity | reflexivity | by left | reflexivity].
  - repeat split; reflexivity.
Defined.

(** X5.  A configuration that carries [weights], even an empty list, is
    refused with a not-implemented error once the clones exist and the
    merge mode has passed its check and been stored; the fields copied
    from the supplied layer are not assigned. *)
Theorem Bidirectional_constructor_rejects_weights (env : Env)
    (config : BidirectionalLayerConfig) (this0 this1 : Bidirectional)
    (forward backward : Layer) (weights : list Tensor) :
  Layer_constructor env config this0 = (this1, Ok tt) ->
  deserialize env (l_className (cfg_layer config)) (l_config (cfg_layer config))
    = Ok forward ->
  deserialize env (l_className (cfg_layer config))
    (<["goBackwards" := CBool (flip_goBackwards (l_config (cfg_layer config)))]>
       (l_config (cfg_layer config))) = Ok backward ->
  (cfg_mergeMode config = None
   \/ exists m, cfg_mergeMode config = Some m
                /\ m ∈ VALID_BIDIRECTIONAL_MERGE_MODES) ->
  cfg_weights config = Some weights ->
  exists this,
    Bidirectional_constructor env config this0 =
      (this, Err (NotImplementedError
         "weights support is not implemented for Bidirectional layer yet."))
    /\ mergeMode this = cfg_mergeMode config
    /\ is_Some (forwardLayer this) /\ is_Some (backwardLayer this)
    /\ returnSequences this = returnSequences this1
    /\ returnState this = returnState this1
    /\ _trainable this = _trainable this1.
Proof.
  intros Hsuper Hf Hb Hmode Hweights.
  rewrite (Bidirectional_constructor_to_mergeMode env config this0 this1
             forward backward Hsuper Hf Hb Hmode).
  rewrite Hweights. eexists. split; [reflexivity |]. simpl.
  repeat split; eauto.
Qed.

Lemma Bidirectional_constructor_rejects_weights_witness :
  exists this msg,
    new_Bidirectional demo_env
      {| cfg_layer := demo_rnn; cfg_mergeMode := Some "sum";
         cfg_weights := Some []; cfg_rest := ∅ |}
    = (this, Err (NotImplementedError msg)).
Proof.
  destruct (Bidirectional_constructor_rejects_weights demo_env
              {| cfg_layer := demo_rnn; cfg_mergeMode := Some "sum";
                 cfg_weights := Some []; cfg_rest := ∅ |}
              blank_Bidirectional
              (set__trainable (Some false) blank_Bidirectional)
              (demo_clone "SimpleRNN" (l_config demo_rnn))
              (demo_clone "SimpleRNN"
                 (<["goBackwards" := CBool true]> (l_config demo_rnn)))
              [])
    as (this & Hrun & _).
  - reflexivity.
  - reflexivity.
  - reflexivity.
  - right. exists "sum". split; [reflexivity |].
    apply (bool_decide_eq_true_1 ("sum" ∈ VALID_BIDIRECTIONAL_MERGE_MODES)).
    reflexivity.
  - reflexivity.
  - eexists _, _. exact Hrun.
Defined.

(** ** The [trainable] property *)

(** X6.  Setting [trainable] on a Bidirectional wrapper never throws,
    also before the clones exist.  Afterwards the getter returns the
    value, every clone that exists has it as its own flag, and nothing
    else has changed: in particular the supplied [layer] keeps its
    flag. *)
Theorem Bidirectional_set_trainable_propagates
    (this : Bidirectional) (value : bool) :
  exists this',
    Bidirectional_set_trainable value this = (this', Ok tt)
    /\ Bidirectional_trainable this' = Some value
    /\ forwardLayer this' = set_l_trainable value <$> forwardLayer this
    /\ backwardLayer this' = set_l_trainable value <$> backwardLayer this
    /\ wrapper this' = wrapper this
    /\ mergeMode this' = mergeMode this
    /\ returnSequences this' = returnSequences this
    /\ returnState this' = returnState this
    /\ numConstants this' = numConstants this.
Proof.
  unfold Bidirectional_set_trainable, bind, modify, get, ret,
    on_forwardLayer, on_backwardLayer, zoom. simpl.
  destruct (forwardLayer this) as [f|] eqn:Hf;
    destruct (backwardLayer this) as [b|] eqn:Hb; simpl;
    rewrite ?Hf, ?Hb; simpl; rewrite ?Hb; simpl;
    eexists; (split; [reflexivity |]); simpl; rewrite ?Hf, ?Hb; repeat split.
Qed.


(** ** [setWeights] on lists of any length *)

(** X8.  With both clones in place, [setWeights(w)] returns normally
    exactly when the first [floor(|w|/2)] entries of [w] agree, in
    number and entry by entry in shape, with the weights of the forward
    clone and the remaining entries with those of the backward clone,
    for lists of odd length too; and whenever it returns,
    [getWeights()] gives back [w]. *)
Theorem Bidirectional_setWeights_returns_iff (this : Bidirectional)
    (forward backward : Layer) (w : list Tensor) :
  forwardLayer this = Some forward ->
  backwardLayer this = Some backward ->
  ((exists this', Bidirectional_setWeights w this = (this', Ok tt))
   <-> weight_shapes (l_weights forward) = weight_shapes (take (length w / 2) w)
       /\ weight_shapes (l_weights backward) = weight_shapes (drop (length w / 2) w))
  /\ (forall this',
        Bidirectional_setWeights w this = (this', Ok tt) ->
        Bidirectional_getWeights this' = (this', Ok w)).
Proof.
  intros Hf Hb.
  destruct (Bidirectional_setWeights_cases this forward backward w Hf Hb)
    as (Hbad_f & Hbad_b & Hgood).
  assert (Hiff : forall this', Bidirectional_setWeights w this = (this', Ok tt) ->
            weight_shapes (l_weights forward) = weight_shapes (take (length w / 2) w)
            /\ weight_shapes (l_weights backward)
               = weight_shapes (drop (length w / 2) w)).
  { intros this' Hrun.
    destruct (decide (weight_shapes (l_weights forward)
                      = weight_shapes (take (length w / 2) w))) as [Hk|Hk].
    - destruct (decide (weight_shapes (l_weights backward)
                        = weight_shapes (drop (length w / 2) w)))
        as [Hk'|Hk']; [done |].
      destruct (Hbad_b Hk Hk') as [msg Hrej]. rewrite Hrej in Hrun. discriminate.
    - destruct (Hbad_f Hk) as [msg Hrej]. rewrite Hrej in Hrun. discriminate. }
  split; [split |].
  - intros [this' Hrun]. by apply (Hiff this').
  - intros [Hk Hk']. eexists. by apply Hgood.
  - intros this' Hrun. destruct (Hiff this' Hrun) as [Hk Hk'].
    rewrite (Hgood Hk Hk') in Hrun. injection Hrun as <-.
    apply Bidirectional_getWeights_of_parts.
Qed.

Lemma Bidirectional_setWeights_returns_iff_witness :
  let w := [Concrete [DNum 4] [1%Z]; Concrete [] [2%Z]; Concrete [DNum 2] [3%Z]] in
  let this :=
    set_forwardLayer (Some (set_l_weights [Concrete [DNum 4] []] demo_rnn))
      (set_backwardLayer
         (Some (set_l_weights [Concrete [] []; Concrete [DNum 2] []] demo_rnn))
         demo_bidirectional) in
  exists this', Bidirectional_setWeights w this = (this', Ok tt)
                /\ Bidirectional_getWeights this' = (this', Ok w).
Proof.
  intros w this.
  destruct (Bidirectional_setWeights_returns_iff this
              (set_l_weights [Concrete [DNum 4] []] demo_rnn)
              (set_l_weights [Concrete [] []; Concrete [DNum 2] []] demo_rnn) w)
    as [[_ Hreturns] Hget]; [reflexivity | reflexivity |].
  destruct Hreturns as [this' Hrun]; [split; reflexivity |].
  exists this'. split; [exact Hrun | by apply Hget].
Defined.

(** X9.  [setWeights] is not all-or-nothing: when the first
    [floor(|w|/2)] entries fit the forward clone in number and shape
    and the remaining entries do not fit the backward clone, the call
    throws a [ValueError] and the forward clone keeps the new weights
    while the backward clone keeps the old ones. *)
Theorem Bidirectional_setWeights_partial_update (this : Bidirectional)
    (forward backward : Layer) (w : list Tensor) :
  forwardLayer this = Some forward ->
  backwardLayer this = Some backward ->
  weight_shapes (l_weights forward) = weight_shapes (take (length w / 2) w) ->
  weight_shapes (l_weights backward) <> weight_shapes (drop (length w / 2) w) ->
  exists this' msg,
    Bidirectional_setWeights w this = (this', Err (ValueError msg))
    /\ l_weights <$> forwardLayer this' = Some (take (length w / 2) w)
    /\ backwardLayer this' = Some backward.
Proof.
  intros Hf Hb Hk Hk'.
  destruct (Bidirectional_setWeights_cases this forward backward w Hf Hb)
    as (_ & Hbad_b & _).
  destruct (Hbad_b Hk Hk') as [msg Hrej].
  eexists _, msg. split; [exact Hrej |]. split; [reflexivity | exact Hb].
Qed.

Lemma Bidirectional_setWeights_partial_update_witness :
  let w := [Concrete [DNum 4] [1%Z]; Concrete [DNum 4] [2%Z]] in
  let this :=
    set_forwardLayer (Some (set_l_weights [Concrete [DNum 4] []] demo_rnn))
      (set_backwardLayer (Some (set_l_weights [Concrete [DNum 2] []] demo_rnn))
         demo_bidirectional) in
  exists this' msg,
    Bidirectional_setWeights w this = (this', Err (ValueError msg))
    /\ l_weights <$> forwardLayer this' = Some [Concrete [DNum 4] [1%Z]]
    /\ l_weights <$> backwardLayer this' = Some [Concrete [DNum 2] []].
Proof.
  intros w this.
  destruct (Bidirectional_setWeights_partial_update this
              (set_l_weights [Concrete [DNum 4] []] demo_rnn)
              (set_l_weights [Concrete [DNum 2] []] demo_rnn) w)
    as (this' & msg & Hrun & Hfw & Hbw);
    [reflexivity | reflexivity | reflexivity | vm_compute; discriminate |].
  exists this', msg. split; [exact Hrun |]. split.
  - rewrite Hfw. reflexivity.
  - rewrite Hbw. reflexivity.
Defined.

(** ** [apply]: the paths that do not widen the input specification *)

(** When [standardizeArgs] returns a single input, as its type says,
    nothing is unpacked from it. *)
Lemma apply_unpack_single (x : TVal) (initialState : option Arr) (w : Invocation) :
  Array_isArray x = false ->
  match x with
  | VList l =>
      initialState <- new_Array (drop 1 l) ;;
      ret (js_nth l 0, Some initialState)
  | _ => ret (x, initialState)
  end w = (w, Ok (x, initialState)).
Proof. destruct x; [reflexivity | reflexivity | discriminate]. Qed.

(** The first steps of [apply]: reading the options, standardising and
    unpacking. *)
Ltac apply_prefix Hstd Hsingle :=
  unfold Bidirectional_apply_prepare;
  erewrite bind_Ok by reflexivity;
  erewrite bind_Ok by reflexivity;
  erewrite bind_Ok by (unfold lift; rewrite Hstd; reflexivity);
  erewrite bind_Ok by (by apply apply_unpack_single);
  cbn [fst snd].

(** X10.  An odd number of initial states is refused with a
    [ValueError] before anything is changed: the options, the clones and
    the receiver are as they were. *)
Theorem Bidirectional_apply_odd_initialState (env : Env) (inputs : TVal)
    (w : Invocation) (std : StandardizedArgs) (initialState : Arr) :
  standardizeArgs env inputs (kw_get "initialState" (kwargs w))
    (kw_get "constants" (kwargs w)) (numConstants (self w)) = Ok std ->
  Array_isArray (std_inputs std) = false ->
  std_initialState std = Some initialState ->
  length (arr_items initialState) mod 2 = 1 ->
  Bidirectional_apply env inputs w =
    (w, Err (ValueError
       ("When passing `initialState` to a Bidrectional RNN, " +:+
        "the state should be an Array containing the states of " +:+
        "the underlying RNNs."))).
Proof.
  intros Hstd Hsingle Hinit Hodd.
  unfold Bidirectional_apply. erewrite bind_Err; [reflexivity |].
  apply_prefix Hstd Hsingle.
  rewrite Hinit.
  rewrite (bool_decide_eq_false_2 (length (arr_items initialState) = 0))
    by (intros H0; rewrite H0 in Hodd; discriminate).
  cbn [andb].
  erewrite bind_Err; [reflexivity |].
  rewrite bool_decide_eq_true_2 by lia. reflexivity.
Qed.

Lemma Bidirectional_apply_odd_initialState_witness :
  exists msg,
    Bidirectional_apply demo_env demo_input
      {| self := demo_bidirectional;
         kwargs := {[ "initialState" :=
                        KArray {| arr_id := 1; arr_items := [demo_state 1] |} ]};
         nextArray := 2 |}
    = ({| self := demo_bidirectional;
          kwargs := {[ "initialState" :=
                         KArray {| arr_id := 1; arr_items := [demo_state 1] |} ]};
          nextArray := 2 |}, Err (ValueError msg)).
Proof.
  eexists.
  apply (Bidirectional_apply_odd_initialState demo_env demo_input _
           {| std_inputs := demo_input;
              std_initialState :=
                Some {| arr_id := 1; arr_items := [demo_state 1] |};
              std_constants := None |}
           {| arr_id := 1; arr_items := [demo_state 1] |});
    reflexivity.
Defined.

(** X11.  Without initial states (none, or an empty list) and without
    constants, [apply] is the base class's [apply] on the standardised
    input, run on an untouched receiver and untouched options. *)
Theorem Bidirectional_apply_delegates_without_states (env : Env) (inputs : TVal)
    (w : Invocation) (std : StandardizedArgs) :
  standardizeArgs env inputs (kw_get "initialState" (kwargs w))
    (kw_get "constants" (kwargs w)) (numConstants (self w)) = Ok std ->
  Array_isArray (std_inputs std) = false ->
  (std_initialState std = None
   \/ exists a, std_initialState std = Some a /\ arr_items a = []) ->
  std_constants std = None ->
  Bidirectional_apply env inputs w = Layer_apply env (std_inputs std) w.
Proof.
  intros Hstd Hsingle Hinit Hconst.
  unfold Bidirectional_apply.
  rewrite (bind_Ok _ _ w w (EarlyApply (std_inputs std))); [reflexivity |].
  apply_prefix Hstd Hsingle.
  rewrite Hconst.
  destruct Hinit as [-> | (a & -> & Hempty)]; [reflexivity |].
  rewrite Hempty. reflexivity.
Qed.

Lemma Bidirectional_apply_delegates_without_states_witness :
  Bidirectional_apply demo_env demo_input
    {| self := demo_bidirectional; kwargs := ∅; nextArray := 1 |}
  = ({| self := demo_bidirectional; kwargs := ∅; nextArray := 1 |}, Ok demo_input).
Proof.
  rewrite (Bidirectional_apply_delegates_without_states demo_env demo_input _
             {| std_inputs := demo_input; std_initialState := None;
                std_constants := None |});
    [reflexivity | reflexivity | reflexivity | by left | reflexivity].
Defined.

(** Reading the shapes of states that are all tensors does not throw. *)
Lemma mapM_shape_specs_tensors {S} (items : list TVal) (s : S) :
  Forall (fun v => exists t, v = VTensor t) items ->
  mapM (fun state => shape <- shape_of state ;; ret (new_InputSpec shape)) items s
  = (s, Ok (spec_of_state <$> items)).
Proof.
  induction 1 as [|v items [t ->] _ IH]; [reflexivity |].
  simpl. erewrite bind_Ok by reflexivity. erewrite bind_Ok by exact IH.
  reflexivity.
Qed.

(** Lines 381-425 on an even list of tensors, the empty list included,
    when constants were passed: the error of line 422 comes after the
    list has been stored in the options and the specifications have been
    split between the clones. *)
Lemma Bidirectional_apply_prepare_constants_after_states env inputs
    (w : Invocation) (std : StandardizedArgs) (a constants : Arr)
    (forward backward : Layer) :
  standardizeArgs env inputs (kw_get "initialState" (kwargs w))
    (kw_get "constants" (kwargs w)) (numConstants (self w)) = Ok std ->
  Array_isArray (std_inputs std) = false ->
  std_initialState std = Some a ->
  length (arr_items a) mod 2 = 0 ->
  Forall (fun v => exists t, v = VTensor t) (arr_items a) ->
  std_constants std = Some constants ->
  forwardLayer (self w) = Some forward ->
  backwardLayer (self w) = Some backward ->
  let specs := spec_of_state <$> arr_items a in
  let k := length (arr_items a) / 2 in
  Bidirectional_apply_prepare env inputs w =
    ({| self :=
          set_backwardLayer (Some (set_l_stateSpec (drop k specs) backward))
            (set_forwardLayer (Some (set_l_stateSpec (take k specs) forward))
               (self w));
        kwargs := <["initialState" := KArray a]> (kwargs w);
        nextArray := nextArray w |},
     Err (NotImplementedError
       ("Support for constants in Bidirectional layers is not " +:+
        "implemented yet."))).
Proof.
  intros Hstd Hsingle Hinit Heven Htensors Hconst Hf Hb specs k.
  apply_prefix Hstd Hsingle.
  rewrite Hinit, Hconst. rewrite andb_false_r.
  rewrite bool_decide_eq_false_2 by lia.
  unfold bind at 1. unfold bind at 1.
  unfold assign_kwargs at 1. unfold modify at 1.
  unfold bind at 1.
  rewrite mapM_shape_specs_tensors by exact Htensors.
  unfold bind, on_self, on_forwardLayer, on_backwardLayer, zoom, modify, ret, throw.
  cbn [self set_self set_kwargs kwargs nextArray fst snd].
  rewrite Hf. cbn [forwardLayer backwardLayer set_forwardLayer self set_self].
  rewrite Hb. unfold Object_assign. rewrite <- insert_union_singleton_l.
  reflexivity.
Qed.

(** X12.  Constants are never accepted: whenever [standardizeArgs]
    reports constants, [apply] does not return normally, whatever else
    was passed.  When the initial state is absent ([null] or
    [undefined]), it throws the not-implemented error at once, leaving
    everything as it was.  When the initial state is an even list of
    tensors, the empty list included, and both clones are in place, the
    same error comes only after the list has been stored under
    ['initialState'] in the caller's options and the state
    specifications of both clones have been overwritten (with empty
    lists when the list is empty). *)
Theorem Bidirectional_apply_rejects_constants (env : Env) (inputs : TVal)
    (w : Invocation) (std : StandardizedArgs) (constants : Arr) :
  standardizeArgs env inputs (kw_get "initialState" (kwargs w))
    (kw_get "constants" (kwargs w)) (numConstants (self w)) = Ok std ->
  std_constants std = Some constants ->
  (forall w' output, Bidirectional_apply env inputs w <> (w', Ok output))
  /\ (Array_isArray (std_inputs std) = false ->
      std_initialState std = None ->
      Bidirectional_apply env inputs w =
        (w, Err (NotImplementedError
           ("Support for constants in Bidirectional layers is not " +:+
            "implemented yet."))))
  /\ (forall (a : Arr) (forward backward : Layer),
      Array_isArray (std_inputs std) = false ->
      std_initialState std = Some a ->
      length (arr_items a) mod 2 = 0 ->
      Forall (fun v => exists t, v = VTensor t) (arr_items a) ->
      forwardLayer (self w) = Some forward ->
      backwardLayer (self w) = Some backward ->
      let specs := spec_of_state <$> arr_items a in
      let k := length (arr_items a) / 2 in
      Bidirectional_apply env inputs w =
        ({| self :=
              set_backwardLayer (Some (set_l_stateSpec (drop k specs) backward))
                (set_forwardLayer (Some (set_l_stateSpec (take k specs) forward))
                   (self w));
            kwargs := <["initialState" := KArray a]> (kwargs w);
            nextArray := nextArray w |},
         Err (NotImplementedError
           ("Support for constants in Bidirectional layers is not " +:+
            "implemented yet."))))
  /\ (forall (a : Arr) (forward backward : Layer),
      Array_isArray (std_inputs std) = false ->
      std_initialState std = Some a ->
      arr_items a = [] ->
      forwardLayer (self w) = Some forward ->
      backwardLayer (self w) = Some backward ->
      Bidirectional_apply env inputs w =
        ({| self :=
              set_backwardLayer (Some (set_l_stateSpec [] backward))
                (set_forwardLayer (Some (set_l_stateSpec [] forward)) (self w));
            kwargs := <["initialState" := KArray a]> (kwargs w);
            nextArray := nextArray w |},
         Err (NotImplementedError
           ("Support for constants in Bidirectional layers is not " +:+
            "implemented yet.")))).
Proof.
  intros Hstd Hconst.
  assert (Hlist : forall (a : Arr) (forward backward : Layer),
      Array_isArray (std_inputs std) = false ->
      std_initialState std = Some a ->
      length (arr_items a) mod 2 = 0 ->
      Forall (fun v => exists t, v = VTensor t) (arr_items a) ->
      forwardLayer (self w) = Some forward ->
      backwardLayer (self w) = Some backward ->
      let specs := spec_of_state <$> arr_items a in
      let k := length (arr_items a) / 2 in
      Bidirectional_apply env inputs w =
        ({| self :=
              set_backwardLayer (Some (set_l_stateSpec (drop k specs) backward))
                (set_forwardLayer (Some (set_l_stateSpec (take k specs) forward))
                   (self w));
            kwargs := <["initialState" := KArray a]> (kwargs w);
            nextArray := nextArray w |},
         Err (NotImplementedError
           ("Support for constants in Bidirectional layers is not " +:+
            "implemented yet.")))).
  { intros a forward backward Hsingle Hinit Heven Htensors Hf Hb specs k.
    unfold Bidirectional_apply. erewrite bind_Err; [reflexivity |].
    by apply (Bidirectional_apply_prepare_constants_after_states env inputs w
                std a constants forward backward). }
  split; [| split; [| split]].
  - intros w' output Hrun. unfold Bidirectional_apply in Hrun.
    inv_bind_at Hrun Hprep prepared w1.
    unfold Bidirectional_apply_prepare in Hprep.
    inv_bind Hprep Hkw. inv_step Hkw. inv_bind Hprep Hthis. inv_step Hthis.
    inv_bind_as Hprep Hs std'. unfold lift in Hs. rewrite Hstd in Hs.
    injection Hs as <- <-.
    inv_bind_as Hprep Hunpack unpacked.
    rewrite Hconst in Hprep. rewrite andb_false_r in Hprep.
    inv_bind_as Hprep Hadd additional. discriminate.
  - intros Hsingle Hinit.
    unfold Bidirectional_apply. erewrite bind_Err; [reflexivity |].
    apply_prefix Hstd Hsingle.
    rewrite Hconst, Hinit. reflexivity.
  - exact Hlist.
  - intros a forward backward Hsingle Hinit Hempty Hf Hb.
    rewrite (Hlist a forward backward Hsingle Hinit); try done.
    + rewrite Hempty. reflexivity.
    + rewrite Hempty. reflexivity.
    + rewrite Hempty. constructor.
Qed.

Lemma Bidirectional_apply_rejects_constants_witness :
  (exists msg,
     Bidirectional_apply demo_env demo_input
       {| self := demo_bidirectional;
          kwargs := {[ "constants" :=
                         KArray {| arr_id := 1; arr_items := [demo_state 7] |} ]};
          nextArray := 2 |}
     = ({| self := demo_bidirectional;
           kwargs := {[ "constants" :=
                          KArray {| arr_id := 1; arr_items := [demo_state 7] |} ]};
           nextArray := 2 |},
        Err (NotImplementedError msg)))
  /\
  (let old := set_l_stateSpec [spec_of_state (demo_state 1)] demo_rnn in
   let this :=
     set_forwardLayer (Some old) (set_backwardLayer (Some old) demo_bidirectional) in
   let options : Kwargs :=
     {[ "initialState" := KArray {| arr_id := 1; arr_items := [] |};
        "constants" := KArray {| arr_id := 2; arr_items := [demo_state 7] |} ]} in
   exists w' msg,
     Bidirectional_apply demo_env demo_input
       {| self := this; kwargs := options; nextArray := 3 |}
     = (w', Err (NotImplementedError msg))
     /\ l_stateSpec <$> forwardLayer (self w') = Some []
     /\ l_stateSpec <$> backwardLayer (self w') = Some []
     /\ l_stateSpec <$> forwardLayer this = Some [spec_of_state (demo_state 1)]).
Proof.
  split.
  - eexists.
    destruct (Bidirectional_apply_rejects_constants demo_env demo_input
                {| self := demo_bidirectional;
                   kwargs := {[ "constants" :=
                                  KArray {| arr_id := 1;
                                            arr_items := [demo_state 7] |} ]};
                   nextArray := 2 |}
                {| std_inputs := demo_input; std_initialState := None;
                   std_constants :=
                     Some {| arr_id := 1; arr_items := [demo_state 7] |} |}
                {| arr_id := 1; arr_items := [demo_state 7] |})
      as (_ & Hthrow & _); [reflexivity | reflexivity |].
    rewrite Hthrow by reflexivity. reflexivity.
  - intros old this options.
    destruct (Bidirectional_apply_rejects_constants demo_env demo_input
                {| self := this; kwargs := options; nextArray := 3 |}
                {| std_inputs := demo_input;
                   std_initialState := Some {| arr_id := 1; arr_items := [] |};
                   std_constants :=
                     Some {| arr_id := 2; arr_items := [demo_state 7] |} |}
                {| arr_id := 2; arr_items := [demo_state 7] |})
      as (_ & _ & _ & Hempty); [reflexivity | reflexivity |].
    eexists _, _. split.
    + apply (Hempty {| arr_id := 1; arr_items := [] |} old old); reflexivity.
    + repeat split; reflexivity.
Defined.

(** Lines 381-425 on a non-empty, even list of tensors, with both clones
    in place and no constants: the list is stored in the options and the
    specifications are split between the clones. *)
Lemma Bidirectional_apply_prepare_collects env inputs (w : Invocation)
    (std : StandardizedArgs) (a : Arr) (forward backward : Layer) :
  standardizeArgs env inputs (kw_get "initialState" (kwargs w))
    (kw_get "constants" (kwargs w)) (numConstants (self w)) = Ok std ->
  Array_isArray (std_inputs std) = false ->
  std_initialState std = Some a ->
  arr_items a <> [] ->
  length (arr_items a) mod 2 = 0 ->
  Forall (fun v => exists t, v = VTensor t) (arr_items a) ->
  std_constants std = None ->
  forwardLayer (self w) = Some forward ->
  backwardLayer (self w) = Some backward ->
  let specs := spec_of_state <$> arr_items a in
  let k := length (arr_items a) / 2 in
  Bidirectional_apply_prepare env inputs w =
    ({| self :=
          set_backwardLayer (Some (set_l_stateSpec (drop k specs) backward))
            (set_forwardLayer (Some (set_l_stateSpec (take k specs) forward))
               (self w));
        kwargs := <["initialState" := KArray a]> (kwargs w);
        nextArray := nextArray w |},
     Ok (Additional (std_inputs std) (arr_items a) specs)).
Proof.
  intros Hstd Hsingle Hinit Hne Heven Htensors Hconst Hf Hb specs k.
  apply_prefix Hstd Hsingle.
  rewrite Hinit, Hconst.
  rewrite (bool_decide_eq_false_2 (length (arr_items a) = 0))
    by (destruct (arr_items a); [done | discriminate]).
  cbn [andb].
  rewrite bool_decide_eq_false_2 by lia.
  unfold bind at 1. unfold bind at 1.
  unfold assign_kwargs at 1. unfold modify at 1.
  unfold bind at 1.
  rewrite mapM_shape_specs_tensors by exact Htensors.
  unfold bind, on_self, on_forwardLayer, on_backwardLayer, zoom, modify, ret.
  cbn [self set_self set_kwargs kwargs nextArray fst snd].
  rewrite Hf. cbn [forwardLayer backwardLayer set_forwardLayer self set_self].
  rewrite Hb. unfold Object_assign. rewrite <- insert_union_singleton_l.
  reflexivity.
Qed.

(** X13.  With a non-empty, even list of concrete initial states, no
    constants and both clones in place, [apply] stores the list under
    ['initialState'] in the caller's options, gives the forward clone
    the specifications of the first half of the states and the backward
    clone those of the second half, and then runs the base class's
    [apply] on the input alone: the receiver's own input specification
    is not widened. *)
Theorem Bidirectional_apply_concrete_states (env : Env) (inputs : TVal)
    (w : Invocation) (std : StandardizedArgs) (a : Arr)
    (forward backward : Layer) :
  standardizeArgs env inputs (kw_get "initialState" (kwargs w))
    (kw_get "constants" (kwargs w)) (numConstants (self w)) = Ok std ->
  Array_isArray (std_inputs std) = false ->
  std_initialState std = Some a ->
  arr_items a <> [] ->
  length (arr_items a) mod 2 = 0 ->
  Forall (fun v => exists shape data, v = VTensor (Concrete shape data))
    (arr_items a) ->
  std_constants std = None ->
  forwardLayer (self w) = Some forward ->
  backwardLayer (self w) = Some backward ->
  let specs := spec_of_state <$> arr_items a in
  let k := length (arr_items a) / 2 in
  Bidirectional_apply env inputs w =
    Layer_apply env (std_inputs std)
      {| self :=
           set_backwardLayer (Some (set_l_stateSpec (drop k specs) backward))
             (set_forwardLayer (Some (set_l_stateSpec (take k specs) forward))
                (self w));
         kwargs := <["initialState" := KArray a]> (kwargs w);
         nextArray := nextArray w |}.
Proof.
  intros Hstd Hsingle Hinit Hne Heven Hconcrete Hconst Hf Hb specs k.
  assert (Htensors : Forall (fun v => exists t, v = VTensor t) (arr_items a)).
  { eapply Forall_impl; [exact Hconcrete |]. intros v (s & d & ->). eauto. }
  unfold Bidirectional_apply.
  erewrite bind_Ok
    by (by apply (Bidirectional_apply_prepare_collects env inputs w std a
                    forward backward)).
  unfold Bidirectional_apply_finish.
  assert (Hfirst : instanceof_SymbolicTensor (js_nth (arr_items a) 0) = false).
  { destruct Hconcrete as [|v items (s & d & ->) _]; reflexivity. }
  rewrite Hfirst.
  assert (Hmix : existsb (fun tensor =>
                   negb (eqb (instanceof_SymbolicTensor tensor) false))
                   (arr_items a) = false).
  { clear -Hconcrete. induction Hconcrete as [|v items (s & d & ->) _ IH];
      [reflexivity | simpl; exact IH]. }
  rewrite Hmix. reflexivity.
Qed.

Lemma Bidirectional_apply_concrete_states_witness :
  exists w',
    Bidirectional_apply demo_env demo_input demo_stateful_call
      = (w', Ok demo_input)
    /\ kwargs w' !! "initialState" = Some (KArray demo_initialState)
    /\ l_stateSpec <$> forwardLayer (self w')
       = Some [spec_of_state (demo_state 10)]
    /\ l_stateSpec <$> backwardLayer (self w')
       = Some [spec_of_state (demo_state 20)]
    /\ inputSpec (wrapper (self w')) = inputSpec (wrapper demo_bidirectional).
Proof.
  eexists. split.
  - rewrite (Bidirectional_apply_concrete_states demo_env demo_input
               demo_stateful_call
               {| std_inputs := demo_input;
                  std_initialState := Some demo_initialState;
                  std_constants := None |}
               demo_initialState
               (set_l_name "forward_simple_rnn_1"
                  (demo_clone "SimpleRNN" (l_config demo_rnn)))
               (set_l_name "backward_simple_rnn_1"
                  (demo_clone "SimpleRNN"
                     (<["goBackwards" := CBool true]> (l_config demo_rnn))))).
    + vm_compute. reflexivity.
    + vm_compute. reflexivity.
    + reflexivity.
    + reflexivity.
    + discriminate.
    + reflexivity.
    + repeat constructor; eexists _, _; reflexivity.
    + reflexivity.
    + vm_compute. reflexivity.
    + vm_compute. reflexivity.
  - repeat split; vm_compute; reflexivity.
Defined.

(** X14.  A list of initial states that mixes symbolic and concrete
    tensors is refused with a [ValueError], but only after the list has
    been stored in the caller's options and the clones have received
    their state specifications: those changes remain. *)
Theorem Bidirectional_apply_mixed_states (env : Env) (inputs : TVal)
    (w : Invocation) (std : StandardizedArgs) (a : Arr)
    (forward backward : Layer) (symbolic other : TVal) :
  standardizeArgs env inputs (kw_get "initialState" (kwargs w))
    (kw_get "constants" (kwargs w)) (numConstants (self w)) = Ok std ->
  Array_isArray (std_inputs std) = false ->
  std_initialState std = Some a ->
  length (arr_items a) mod 2 = 0 ->
  Forall (fun v => exists t, v = VTensor t) (arr_items a) ->
  symbolic ∈ arr_items a ->
  instanceof_SymbolicTensor symbolic = true ->
  other ∈ arr_items a ->
  instanceof_SymbolicTensor other = false ->
  std_constants std = None ->
  forwardLayer (self w) = Some forward ->
  backwardLayer (self w) = Some backward ->
  let specs := spec_of_state <$> arr_items a in
  let k := length (arr_items a) / 2 in
  Bidirectional_apply env inputs w =
    ({| self :=
          set_backwardLayer (Some (set_l_stateSpec (drop k specs) backward))
            (set_forwardLayer (Some (set_l_stateSpec (take k specs) forward))
               (self w));
        kwargs := <["initialState" := KArray a]> (kwargs w);
        nextArray := nextArray w |},
     Err (ValueError
       ("The initial state of a Bidirectional layer cannot be " +:+
        "specified as a mix of symbolic and non-symbolic tensors"))).
Proof.
  intros Hstd Hsingle Hinit Heven Htensors Hs Hsym Ho Hother Hconst Hf Hb specs k.
  assert (Hne : arr_items a <> []).
  { intros Hnil. rewrite Hnil in Hs. by apply elem_of_nil in Hs. }
  unfold Bidirectional_apply.
  erewrite bind_Ok
    by (by apply (Bidirectional_apply_prepare_collects env inputs w std a
                    forward backward)).
  unfold Bidirectional_apply_finish.
  assert (Hmix : existsb (fun tensor =>
                   negb (eqb (instanceof_SymbolicTensor tensor)
                           (instanceof_SymbolicTensor (js_nth (arr_items a) 0))))
                   (arr_items a) = true).
  { apply existsb_exists.
    destruct (instanceof_SymbolicTensor (js_nth (arr_items a) 0)).
    - exists other. split; [by apply list_elem_of_In | by rewrite Hother].
    - exists symbolic. split; [by apply list_elem_of_In | by rewrite Hsym]. }
  rewrite Hmix. reflexivity.
Qed.

Lemma Bidirectional_apply_mixed_states_witness :
  exists w' msg,
    Bidirectional_apply demo_env demo_input
      {| self := demo_bidirectional;
         kwargs := {[ "initialState" :=
                        KArray {| arr_id := 1;
                                  arr_items := [demo_symbolic "h"; demo_state 2] |} ]};
         nextArray := 2 |}
    = (w', Err (ValueError msg))
    /\ l_stateSpec <$> forwardLayer (self w')
       = Some [spec_of_state (demo_symbolic "h")].
Proof.
  eexists _, _. split.
  - apply (Bidirectional_apply_mixed_states demo_env demo_input _
             {| std_inputs := demo_input;
                std_initialState :=
                  Some {| arr_id := 1;
                          arr_items := [demo_symbolic "h"; demo_state 2] |};
                std_constants := None |}
             {| arr_id := 1; arr_items := [demo_symbolic "h"; demo_state 2] |}
             (set_l_name "forward_simple_rnn_1"
                (demo_clone "SimpleRNN" (l_config demo_rnn)))
             (set_l_name "backward_simple_rnn_1"
                (demo_clone "SimpleRNN"
                   (<["goBackwards" := CBool true]> (l_config demo_rnn))))
             (demo_symbolic "h") (demo_state 2)).
    + vm_compute. reflexivity.
    + reflexivity.
    + reflexivity.
    + reflexivity.
    + repeat constructor; eexists; reflexivity.
    + apply list_elem_of_here.
    + reflexivity.
    + apply list_elem_of_further, list_elem_of_here.
    + reflexivity.
    + reflexivity.
    + vm_compute. reflexivity.
    + vm_compute. reflexivity.
  - vm_compute. reflexivity.
Defined.

(** ** [call]: masks, the run without initial state, and returned states *)

(** X15.  A mask in the options makes [call] throw the not-implemented
    error before either clone is run: nothing has changed. *)
Theorem Bidirectional_call_rejects_mask (env : Env) (inputs : TVal)
    (w : Invocation) :
  is_nullish (kw_get "mask" (kwargs w)) = false ->
  Bidirectional_call env inputs w =
    (w, Err (NotImplementedError
       ("The support for masking is not implemented for " +:+
        "Bidirectional layers yet."))).
Proof.
  intros Hmask. unfold Bidirectional_call.
  erewrite bind_Ok by reflexivity. rewrite Hmask. reflexivity.
Qed.

Lemma Bidirectional_call_rejects_mask_witness :
  exists msg,
    Bidirectional_call demo_env demo_input
      {| self := demo_bidirectional;
         kwargs := {[ "mask" := KTensor (Concrete [DNum 2; DNum 5] []) ]};
         nextArray := 1 |}
    = ({| self := demo_bidirectional;
          kwargs := {[ "mask" := KTensor (Concrete [DNum 2; DNum 5] []) ]};
          nextArray := 1 |}, Err (NotImplementedError msg)).
Proof.
  eexists.
  apply (Bidirectional_call_rejects_mask demo_env demo_input). reflexivity.
Defined.

(** X16.  Without an initial state in the options, the forward output
    comes from the forward clone and the backward output from the
    backward clone, both called on the same input with the same,
    unmodified options; the options object and the array counter are the
    same after the call, whether the merge then returns or throws. *)
Theorem Bidirectional_call_without_initialState (env : Env) (inputs : TVal)
    (w : Invocation) (forward forward' backward backward' : Layer)
    (y yRev : TVal) :
  is_nullish (kw_get "mask" (kwargs w)) = true ->
  kw_get "initialState" (kwargs w) = KNullish ->
  forwardLayer (self w) = Some forward ->
  backwardLayer (self w) = Some backward ->
  layer_call env inputs (kwargs w) forward = (forward', Ok y) ->
  layer_call env inputs (kwargs w) backward = (backward', Ok yRev) ->
  let w1 :=
    {| self := set_backwardLayer (Some backward')
                 (set_forwardLayer (Some forward') (self w));
       kwargs := kwargs w;
       nextArray := nextArray w |} in
  Bidirectional_call_directions env inputs w = (w1, Ok (y, yRev))
  /\ Bidirectional_call env inputs w
     = Bidirectional_call_merge env (self w1) y yRev w1
  /\ fst (Bidirectional_call env inputs w) = w1.
Proof.
  intros Hmask Hinit Hf Hb Hcallf Hcallb w1.
  assert (Hdir : Bidirectional_call_directions env inputs w = (w1, Ok (y, yRev))).
  { unfold Bidirectional_call_directions.
    erewrite bind_Ok by reflexivity. rewrite Hinit.
    unfold bind, on_self, on_forwardLayer, on_backwardLayer, zoom, ret.
    cbn [self set_self]. rewrite Hf, Hcallf.
    cbn [self set_self backwardLayer set_forwardLayer]. rewrite Hb, Hcallb.
    reflexivity. }
  assert (Hcall : Bidirectional_call env inputs w
                  = Bidirectional_call_merge env (self w1) y yRev w1).
  { unfold Bidirectional_call.
    erewrite bind_Ok by reflexivity. rewrite Hmask. cbn [negb].
    erewrite bind_Ok by exact Hdir.
    erewrite bind_Ok by reflexivity. reflexivity. }
  split; [exact Hdir |]. split; [exact Hcall |].
  rewrite Hcall.
  apply (Bidirectional_call_merge_pure env (self w1) y yRev w1).
Qed.

Lemma Bidirectional_call_without_initialState_witness :
  exists w',
    Bidirectional_call_directions demo_env demo_input
      {| self := demo_bidirectional; kwargs := {[ "training" := KBool true ]};
         nextArray := 1 |}
    = (w', Ok (VTensor (Concrete [] [0%Z; 0%Z]), VTensor (Concrete [] [1%Z; 0%Z])))
    /\ kwargs w' = {[ "training" := KBool true ]}.
Proof.
  destruct (Bidirectional_call_without_initialState demo_env demo_input
             {| self := demo_bidirectional;
                kwargs := {[ "training" := KBool true ]}; nextArray := 1 |}
             (set_l_name "forward_simple_rnn_1"
                (demo_clone "SimpleRNN" (l_config demo_rnn)))
             (set_l_name "forward_simple_rnn_1"
                (demo_clone "SimpleRNN" (l_config demo_rnn)))
             (set_l_name "backward_simple_rnn_1"
                (demo_clone "SimpleRNN"
                   (<["goBackwards" := CBool true]> (l_config demo_rnn))))
             (set_l_name "backward_simple_rnn_1"
                (demo_clone "SimpleRNN"
                   (<["goBackwards" := CBool true]> (l_config demo_rnn))))
             (VTensor (Concrete [] [0%Z; 0%Z]))
             (VTensor (Concrete [] [1%Z; 0%Z])))
    as (Hdir & _ & _).
  - vm_compute. reflexivity.
  - vm_compute. reflexivity.
  - vm_compute. reflexivity.
  - vm_compute. reflexivity.
  - vm_compute. reflexivity.
  - vm_compute. reflexivity.
  - eexists. split; [exact Hdir | reflexivity].
Defined.



(** ** [Bidirectional.build] *)

(** X18.  [build] builds the forward clone and then the backward clone,
    each on the same input shape, and marks the wrapper built once both
    have returned; nothing else of the wrapper changes. *)
Theorem Bidirectional_build_builds_both_clones (env : Env)
    (this : Bidirectional) (inputShape : ShapeArg)
    (forward forward' backward backward' : Layer) :
  forwardLayer this = Some forward ->
  backwardLayer this = Some backward ->
  layer_build env inputShape forward = (forward', Ok tt) ->
  layer_build env inputShape backward = (backward', Ok tt) ->
  Bidirectional_build env inputShape this =
    (set_wrapper (set_built true (wrapper this))
       (set_backwardLayer (Some backward')
          (set_forwardLayer (Some forward') this)), Ok tt).
Proof.
  intros Hf Hb Hbf Hbb. unfold Bidirectional_build.
  erewrite bind_Ok by (by apply (on_forwardLayer_gets l_name this forward)).
  unfold on_forwardLayer at 1.
  erewrite bind_Ok; last first.
  { rewrite (zoom_Some _ _ _ this forward Hf). rewrite Hbf. reflexivity. }
  erewrite bind_Ok; last first.
  { by apply (on_backwardLayer_gets l_name _ backward). }
  unfold on_backwardLayer.
  erewrite bind_Ok; last first.
  { rewrite (zoom_Some _ _ _ _ backward); [| exact Hb].
    rewrite Hbb. reflexivity. }
  reflexivity.
Qed.

Lemma Bidirectional_build_builds_both_clones_witness :
  exists this,
    Bidirectional_build (demo_env_with_build demo_build_one_weight)
      (OneShape [DNum 2; DNum 5; DNum 4]) demo_bidirectional = (this, Ok tt)
    /\ built (wrapper this) = true
    /\ length <$> (l_weights <$> forwardLayer this) = Some 1
    /\ length <$> (l_weights <$> backwardLayer this) = Some 1.
Proof.
  eexists. split.
  - apply (Bidirectional_build_builds_both_clones
             (demo_env_with_build demo_build_one_weight) demo_bidirectional
             (OneShape [DNum 2; DNum 5; DNum 4])
             (set_l_name "forward_simple_rnn_1"
                (demo_clone "SimpleRNN" (l_config demo_rnn)))
             (set_l_weights [Concrete [DNum 4; DNum 3] []]
                (set_l_name "forward_simple_rnn_1"
                   (demo_clone "SimpleRNN" (l_config demo_rnn))))
             (set_l_name "backward_simple_rnn_1"
                (demo_clone "SimpleRNN"
                   (<["goBackwards" := CBool true]> (l_config demo_rnn))))
             (set_l_weights [Concrete [DNum 4; DNum 3] []]
                (set_l_name "backward_simple_rnn_1"
                   (demo_clone "SimpleRNN"
                      (<["goBackwards" := CBool true]> (l_config demo_rnn))))));
      vm_compute; reflexivity.
  - repeat split; reflexivity.
Defined.

(** X19.  When the backward clone's [build] throws, [build] throws the
    same error with the forward clone already built and kept as built;
    the wrapper itself is not marked built. *)
Theorem Bidirectional_build_backward_throws (env : Env)
    (this : Bidirectional) (inputShape : ShapeArg)
    (forward forward' backward backward' : Layer) (e : Error) :
  forwardLayer this = Some forward ->
  backwardLayer this = Some backward ->
  layer_build env inputShape forward = (forward', Ok tt) ->
  layer_build env inputShape backward = (backward', Err e) ->
  Bidirectional_build env inputShape this =
    (set_backwardLayer (Some backward')
       (set_forwardLayer (Some forward') this), Err e)
  /\ built (wrapper (fst (Bidirectional_build env inputShape this)))
     = built (wrapper this).
Proof.
  intros Hf Hb Hbf Hbb.
  assert (Hrun : Bidirectional_build env inputShape this =
            (set_backwardLayer (Some backward')
               (set_forwardLayer (Some forward') this), Err e)).
  { unfold Bidirectional_build.
    erewrite bind_Ok by (by apply (on_forwardLayer_gets l_name this forward)).
    unfold on_forwardLayer at 1.
    erewrite bind_Ok; last first.
    { rewrite (zoom_Some _ _ _ this forward Hf). rewrite Hbf. reflexivity. }
    erewrite bind_Ok; last first.
    { by apply (on_backwardLayer_gets l_name _ backward). }
    unfold on_backwardLayer.
    erewrite bind_Err; [reflexivity |].
    rewrite (zoom_Some _ _ _ _ backward); [| exact Hb].
    rewrite Hbb. reflexivity. }
  split; [exact Hrun |]. rewrite Hrun. reflexivity.
Qed.

Lemma Bidirectional_build_backward_throws_witness :
  let build (inputShape : ShapeArg) : M Layer unit :=
    l <- get ;;
    if config_flag "goBackwards" (l_config l)
    then demo_build_refuses inputShape
    else demo_build_one_weight inputShape in
  exists this e,
    Bidirectional_build (demo_env_with_build build)
      (OneShape [DNum 2; DNum 5; DNum 4]) demo_bidirectional = (this, Err e)
    /\ built (wrapper this) = false
    /\ length <$> (l_weights <$> forwardLayer this) = Some 1.
Proof.
  intros build.
  destruct (Bidirectional_build_backward_throws
              (demo_env_with_build build) demo_bidirectional
              (OneShape [DNum 2; DNum 5; DNum 4])
              (set_l_name "forward_simple_rnn_1"
                 (demo_clone "SimpleRNN" (l_config demo_rnn)))
              (set_l_weights [Concrete [DNum 4; DNum 3] []]
                 (set_l_name "forward_simple_rnn_1"
                    (demo_clone "SimpleRNN" (l_config demo_rnn))))
              (set_l_name "backward_simple_rnn_1"
                 (demo_clone "SimpleRNN"
                    (<["goBackwards" := CBool true]> (l_config demo_rnn))))
              (set_l_name "backward_simple_rnn_1"
                 (demo_clone "SimpleRNN"
                    (<["goBackwards" := CBool true]> (l_config demo_rnn))))
              (ValueError "Input shape is not supported"))
    as [Hrun _]; [vm_compute; reflexivity .. |].
  eexists _, _. split; [exact Hrun |]. split; reflexivity.
Defined.

(** ** [Bidirectional.computeOutputShape] *)

Lemma js_index_snoc (init : Shape) (d : Dim) :
  js_index (init ++ [d]) (length init) = d.
Proof. induction init as [|x init IH]; [reflexivity | exact IH]. Qed.

Lemma double_last_snoc (init : Shape) (d : Dim) :
  double_last (init ++ [d]) = entries init ++ [times2 d].
Proof.
  unfold double_last.
  destruct (init ++ [d]) as [|x rest] eqn:Hs.
  { destruct init; discriminate. }
  rewrite <- Hs. rewrite length_app. simpl length.
  replace (length init + 1 - 1) with (length init) by lia.
  rewrite take_app_length. by rewrite js_index_snoc.
Qed.

(** The forward clone's answer and the wrapper's flags decide the run. *)
Lemma Bidirectional_computeOutputShape_run rnn_computeOutputShape singletonOrArray
    (this : Bidirectional) (inputShape : ShapeArg) (forward : Layer)
    (outputShape : Shape) (stateShapes : list Shape) (answer : ShapeArg) :
  forwardLayer this = Some forward ->
  rnn_computeOutputShape forward inputShape = Ok answer ->
  (answer = OneShape outputShape /\ stateShapes = []
   \/ answer = ManyShapes (outputShape :: stateShapes)) ->
  Bidirectional_computeOutputShape rnn_computeOutputShape singletonOrArray
    inputShape this =
  (this,
   Ok (let merged :=
         if bool_decide (mergeMode this = Some "concat") then
           (double_last outputShape, [double_last outputShape])
         else if bool_decide (mergeMode this = None) then
           (entries outputShape, [entries outputShape; entries outputShape])
         else (entries outputShape, [entries outputShape]) in
       if returnState this then
         if bool_decide (mergeMode this = None) then
           ShapeList (snd merged ++ (entries <$> stateShapes)
                        ++ (entries <$> stateShapes))
         else
           ShapeList ([fst merged] ++ (entries <$> stateShapes)
                        ++ (entries <$> stateShapes))
       else singletonOrArray (snd merged))).
Proof.
  intros Hf Hanswer Hshape. unfold Bidirectional_computeOutputShape.
  erewrite bind_Ok; last first.
  { unfold on_forwardLayer. rewrite (zoom_Some _ _ _ this forward Hf).
    simpl. by rewrite set_forwardLayer_same. }
  erewrite bind_Ok by (unfold lift; rewrite Hanswer; reflexivity).
  erewrite bind_Ok by reflexivity.
  destruct Hshape as [[-> ->] | ->]; cbn [lookup list_lookup default drop];
    destruct (returnState this); repeat case_bool_decide; reflexivity.
Qed.

(** X20.  Under merge mode ['concat'] (no returned states) the output
    shape is the forward clone's output shape with its last entry
    doubled and every other entry kept; a last entry that is unknown
    ([null]) comes out as 0, since [null * 2] is 0. *)
Theorem Bidirectional_computeOutputShape_concat
    (rnn_computeOutputShape : Layer -> ShapeArg -> result ShapeArg)
    (singletonOrArray : list (list Entry) -> ShapesOut)
    (this : Bidirectional) (inputShape : ShapeArg) (forward : Layer)
    (init : Shape) (last : Dim) :
  forwardLayer this = Some forward ->
  rnn_computeOutputShape forward inputShape = Ok (OneShape (init ++ [last])) ->
  returnState this = false ->
  mergeMode this = Some "concat" ->
  Bidirectional_computeOutputShape rnn_computeOutputShape singletonOrArray
    inputShape this
  = (this, Ok (singletonOrArray [entries init ++ [times2 last]]))
  /\ (forall n, last = DNum n -> times2 last = EDim (DNum (n * 2)))
  /\ (last = DNull -> times2 last = EDim (DNum 0)).
Proof.
  intros Hf Hanswer Hrs Hmode. split; [| split; intros; subst; reflexivity].
  rewrite (Bidirectional_computeOutputShape_run _ _ this inputShape forward
             (init ++ [last]) [] _ Hf Hanswer) by (by left).
  rewrite Hrs, Hmode. rewrite bool_decide_eq_true_2 by reflexivity.
  cbn [snd]. by rewrite double_last_snoc.
Qed.

Lemma Bidirectional_computeOutputShape_concat_witness :
  snd (Bidirectional_computeOutputShape demo_rnn_computeOutputShape
         demo_singletonOrArray (OneShape [DNum 2; DNum 5; DNum 4])
         demo_bidirectional)
  = Ok (SingleShape [EDim (DNum 2); EDim (DNum 5); EDim (DNum 6)]).
Proof.
  destruct (Bidirectional_computeOutputShape_concat demo_rnn_computeOutputShape
              demo_singletonOrArray demo_bidirectional
              (OneShape [DNum 2; DNum 5; DNum 4])
              (set_l_name "forward_simple_rnn_1"
                 (demo_clone "SimpleRNN" (l_config demo_rnn)))
              [DNum 2; DNum 5] (DNum 3))
    as (Hrun & _ & _); [vm_compute; reflexivity .. |].
  rewrite Hrun. reflexivity.
Defined.

(** X21.  Under any other merge mode (no returned states) the forward
    clone's output shape is passed on unchanged: once for a merge mode
    such as ['sum'], ['mul'] or ['ave'], twice when there is no merge
    mode. *)
Theorem Bidirectional_computeOutputShape_unmerged_shape
    (rnn_computeOutputShape : Layer -> ShapeArg -> result ShapeArg)
    (singletonOrArray : list (list Entry) -> ShapesOut)
    (this : Bidirectional) (inputShape : ShapeArg) (forward : Layer)
    (outputShape : Shape) :
  forwardLayer this = Some forward ->
  rnn_computeOutputShape forward inputShape = Ok (OneShape outputShape) ->
  returnState this = false ->
  mergeMode this <> Some "concat" ->
  Bidirectional_computeOutputShape rnn_computeOutputShape singletonOrArray
    inputShape this
  = (this,
     Ok (singletonOrArray
           match mergeMode this with
           | Some _ => [entries outputShape]
           | None => [entries outputShape; entries outputShape]
           end)).
Proof.
  intros Hf Hanswer Hrs Hmode.
  rewrite (Bidirectional_computeOutputShape_run _ _ this inputShape forward
             outputShape [] _ Hf Hanswer) by (by left).
  rewrite Hrs. rewrite bool_decide_eq_false_2 by exact Hmode.
  destruct (mergeMode this) as [m|].
  - rewrite bool_decide_eq_false_2 by discriminate. reflexivity.
  - rewrite bool_decide_eq_true_2 by reflexivity. reflexivity.
Qed.

Lemma Bidirectional_computeOutputShape_unmerged_shape_witness :
  snd (Bidirectional_computeOutputShape demo_rnn_computeOutputShape
         demo_singletonOrArray (OneShape [DNum 2; DNum 5; DNum 4])
         (set_mergeMode None demo_bidirectional))
  = Ok (ShapeList [[EDim (DNum 2); EDim (DNum 5); EDim (DNum 3)];
                   [EDim (DNum 2); EDim (DNum 5); EDim (DNum 3)]]).
Proof.
  rewrite (Bidirectional_computeOutputShape_unmerged_shape
             demo_rnn_computeOutputShape demo_singletonOrArray
             (set_mergeMode None demo_bidirectional)
             (OneShape [DNum 2; DNum 5; DNum 4])
             (set_l_name "forward_simple_rnn_1"
                (demo_clone "SimpleRNN" (l_config demo_rnn)))
             [DNum 2; DNum 5; DNum 3]);
    [reflexivity | vm_compute; reflexivity | vm_compute; reflexivity
    | reflexivity | discriminate].
Defined.

(** X22.  With [returnState] set and the forward clone answering
    [[outputShape, ...stateShapes]], the result is always a list: the
    output shape (doubled in its last entry under ['concat'], given
    twice when there is no merge mode), then the state shapes, then the
    state shapes again, unchanged.  Its length is the number of outputs
    plus twice the number of states. *)
Theorem Bidirectional_computeOutputShape_returnState
    (rnn_computeOutputShape : Layer -> ShapeArg -> result ShapeArg)
    (singletonOrArray : list (list Entry) -> ShapesOut)
    (this : Bidirectional) (inputShape : ShapeArg) (forward : Layer)
    (outputShape : Shape) (stateShapes : list Shape) :
  forwardLayer this = Some forward ->
  rnn_computeOutputShape forward inputShape
    = Ok (ManyShapes (outputShape :: stateShapes)) ->
  returnState this = true ->
  exists outputs,
    Bidirectional_computeOutputShape rnn_computeOutputShape singletonOrArray
      inputShape this
    = (this, Ok (ShapeList (outputs ++ (entries <$> stateShapes)
                              ++ (entries <$> stateShapes))))
    /\ outputs =
       (if bool_decide (mergeMode this = Some "concat")
        then [double_last outputShape]
        else match mergeMode this with
             | Some _ => [entries outputShape]
             | None => [entries outputShape; entries outputShape]
             end)
    /\ length (outputs ++ (entries <$> stateShapes) ++ (entries <$> stateShapes))
       = match mergeMode this with Some _ => 1 | None => 2 end
         + 2 * length stateShapes.
Proof.
  intros Hf Hanswer Hrs.
  rewrite (Bidirectional_computeOutputShape_run _ _ this inputShape forward
             outputShape stateShapes _ Hf Hanswer) by (by right).
  rewrite Hrs.
  destruct (mergeMode this) as [m|].
  - rewrite (bool_decide_eq_false_2 (Some m = None)) by discriminate.
    eexists. split; [reflexivity |]. split.
    + case_bool_decide; reflexivity.
    + rewrite !length_app, !length_fmap.
      case_bool_decide; simpl; lia.
  - rewrite (bool_decide_eq_false_2 (None = Some "concat")) by discriminate.
    rewrite (bool_decide_eq_true_2 (@None string = None)) by reflexivity.
    eexists. split; [reflexivity |]. split; [reflexivity |].
    rewrite !length_app, !length_fmap. simpl. lia.
Qed.

Lemma Bidirectional_computeOutputShape_returnState_witness :
  snd (Bidirectional_computeOutputShape demo_rnn_computeOutputShape
         demo_singletonOrArray (OneShape [DNum 2; DNum 5; DNum 4])
         (set_forwardLayer (Some (set_l_returnState_demo demo_rnn))
            (set_returnState true demo_bidirectional)))
  = Ok (ShapeList [[EDim (DNum 2); EDim (DNum 5); EDim (DNum 6)];
                   [EDim (DNum 2); EDim (DNum 3)];
                   [EDim (DNum 2); EDim (DNum 3)]]).
Proof.
  destruct (Bidirectional_computeOutputShape_returnState
              demo_rnn_computeOutputShape demo_singletonOrArray
              (set_forwardLayer (Some (set_l_returnState_demo demo_rnn))
                 (set_returnState true demo_bidirectional))
              (OneShape [DNum 2; DNum 5; DNum 4])
              (set_l_returnState_demo demo_rnn)
              [DNum 2; DNum 5; DNum 3] [[DNum 2; DNum 3]])
    as (outputs & Hrun & -> & _); [reflexivity .. |].
  rewrite Hrun. vm_compute. reflexivity.
Defined.

(** ** [fromConfig] *)

(** X23.  [Wrapper.fromConfig] deserialises the ['layer'] entry with the
    custom objects it was given and constructs the class from the
    remaining entries plus the live layer under ['layer'].  The caller's
    dictionary is changed: it has lost its ['layer'] entry, also when
    the constructor throws.  When the deserialisation throws, the
    dictionary is untouched and no instance is constructed. *)
Theorem Wrapper_fromConfig_consumes_layer_entry (T : Type)
    (cls : gmap string ConfigEntry -> result T)
    (deserialize_entry : option ConfigEntry -> option ConfigDict -> result Layer)
    (customObjects : ConfigDict) (config : gmap string ConfigEntry) :
  Wrapper_fromConfig T cls deserialize_entry customObjects config =
    match deserialize_entry (config !! "layer") (Some customObjects) with
    | Ok l =>
        (delete "layer" config,
         cls (<["layer" := LayerObject l]> (delete "layer" config)))
    | Err e => (config, Err e)
    end.
Proof.
  unfold Wrapper_fromConfig.
  erewrite bind_Ok by reflexivity.
  destruct (deserialize_entry (config !! "layer") (Some customObjects))
    as [l|e] eqn:Hd.
  - erewrite bind_Ok by reflexivity.
    erewrite bind_Ok by reflexivity.
    erewrite bind_Ok by reflexivity.
    unfold lift, Object_assign.
    rewrite <- insert_union_singleton_r by apply lookup_delete_eq.
    reflexivity.
  - erewrite bind_Err; reflexivity.
Qed.

Lemma Wrapper_fromConfig_run_Ok (T : Type)
    (cls : gmap string ConfigEntry -> result T)
    (deserialize_entry : option ConfigEntry -> option ConfigDict -> result Layer)
    (customObjects : ConfigDict) (config : gmap string ConfigEntry) (l : Layer) :
  deserialize_entry (config !! "layer") (Some customObjects) = Ok l ->
  Wrapper_fromConfig T cls deserialize_entry customObjects config =
    (delete "layer" config,
     cls (<["layer" := LayerObject l]> (delete "layer" config))).
Proof.
  intros Hd. unfold Wrapper_fromConfig.
  erewrite bind_Ok by reflexivity.
  erewrite bind_Ok by (unfold lift; rewrite Hd; reflexivity).
  erewrite bind_Ok by reflexivity.
  erewrite bind_Ok by reflexivity.
  unfold lift, Object_assign.
  rewrite <- insert_union_singleton_r by apply lookup_delete_eq.
  reflexivity.
Qed.

(** The run of [Bidirectional.fromConfig] once the layer is there. *)
Lemma Bidirectional_fromConfig_run (T : Type)
    (cls : gmap string ConfigEntry -> result T)
    (deserialize_entry : option ConfigEntry -> option ConfigDict -> result Layer)
    (config : gmap string ConfigEntry) (l : Layer) :
  deserialize_entry (config !! "layer") None = Ok l ->
  Bidirectional_fromConfig T cls deserialize_entry config =
    if entry_non_null (config !! "numConstants") then
      (delete "layer" config,
       Err (NotImplementedError
         ("Deserialization of a Bidirectional layer with numConstants " +:+
          "present is not supported yet.")))
    else
      (<["layer" := LayerObject l]> config,
       cls (<["layer" := LayerObject l]> config)).
Proof.
  intros Hd. unfold Bidirectional_fromConfig.
  erewrite bind_Ok by reflexivity.
  erewrite bind_Ok by (unfold lift; rewrite Hd; reflexivity).
  erewrite bind_Ok by reflexivity.
  erewrite bind_Ok by reflexivity.
  rewrite (lookup_delete_ne config "layer" "numConstants") by done.
  destruct (entry_non_null (config !! "numConstants")); [reflexivity |].
  erewrite bind_Ok by reflexivity.
  erewrite bind_Ok by reflexivity.
  unfold lift. rewrite insert_delete_eq. reflexivity.
Qed.

(** X24.  [Bidirectional.fromConfig] refuses a dictionary with a
    non-null ['numConstants'] with the not-implemented error; by then
    the layer has been deserialised and the caller's dictionary has
    lost its ['layer'] entry, and no instance is constructed. *)
Theorem Bidirectional_fromConfig_rejects_numConstants (T : Type)
    (cls : gmap string ConfigEntry -> result T)
    (deserialize_entry : option ConfigEntry -> option ConfigDict -> result Layer)
    (config : gmap string ConfigEntry) (l : Layer) :
  deserialize_entry (config !! "layer") None = Ok l ->
  entry_non_null (config !! "numConstants") = true ->
  exists msg,
    Bidirectional_fromConfig T cls deserialize_entry config
      = (delete "layer" config, Err (NotImplementedError msg))
    /\ delete "layer" config !! "layer" = None.
Proof.
  intros Hd Hnum.
  rewrite (Bidirectional_fromConfig_run T cls deserialize_entry config l Hd).
  rewrite Hnum. eexists. split; [reflexivity | apply lookup_delete_eq].
Qed.

Lemma Bidirectional_fromConfig_rejects_numConstants_witness :
  exists msg,
    snd (Bidirectional_fromConfig _ demo_cls demo_deserialize_entry
           (<["numConstants" := Json (CNum 1)]> demo_saved_config))
    = Err (NotImplementedError msg).
Proof.
  destruct (Bidirectional_fromConfig_rejects_numConstants _ demo_cls
              demo_deserialize_entry
              (<["numConstants" := Json (CNum 1)]> demo_saved_config)
              (demo_clone "SimpleRNN" (l_config demo_rnn)))
    as (msg & Hrun & _); [vm_compute; reflexivity .. |].
  exists msg. by rewrite Hrun.
Defined.

(** X25.  Without ['numConstants'], and when the registry resolves the
    ['layer'] entry to the same layer with or without (these) custom
    objects, [Bidirectional.fromConfig] hands the constructor the very
    dictionary [Wrapper.fromConfig] hands it, so both return the same;
    but the caller's dictionary ends differently: without ['layer']
    after [Wrapper.fromConfig], with ['layer'] bound to the live layer
    after [Bidirectional.fromConfig]. *)
Theorem fromConfig_same_instance_different_leftover (T : Type)
    (cls : gmap string ConfigEntry -> result T)
    (deserialize_entry : option ConfigEntry -> option ConfigDict -> result Layer)
    (customObjects : ConfigDict) (config : gmap string ConfigEntry) (l : Layer) :
  deserialize_entry (config !! "layer") None = Ok l ->
  deserialize_entry (config !! "layer") (Some customObjects) = Ok l ->
  entry_non_null (config !! "numConstants") = false ->
  snd (Bidirectional_fromConfig T cls deserialize_entry config)
    = snd (Wrapper_fromConfig T cls deserialize_entry customObjects config)
  /\ snd (Bidirectional_fromConfig T cls deserialize_entry config)
     = cls (<["layer" := LayerObject l]> config)
  /\ fst (Wrapper_fromConfig T cls deserialize_entry customObjects config)
       !! "layer" = None
  /\ fst (Bidirectional_fromConfig T cls deserialize_entry config)
       !! "layer" = Some (LayerObject l).
Proof.
  intros Hnone Hsome Hnum.
  rewrite (Bidirectional_fromConfig_run T cls deserialize_entry config l Hnone).
  rewrite Hnum.
  rewrite Wrapper_fromConfig_run_Ok with (l := l) by exact Hsome.
  cbn [fst snd]. rewrite insert_delete_eq.
  repeat split; [apply lookup_delete_eq | apply lookup_insert_eq].
Qed.

Lemma fromConfig_same_instance_different_leftover_witness :
  snd (Bidirectional_fromConfig _ demo_cls demo_deserialize_entry demo_saved_config)
  = snd (Wrapper_fromConfig _ demo_cls demo_deserialize_entry ∅ demo_saved_config).
Proof.
  apply (fromConfig_same_instance_different_leftover _ demo_cls
           demo_deserialize_entry ∅ demo_saved_config
           (demo_clone "SimpleRNN" (l_config demo_rnn)));
    vm_compute; reflexivity.
Defined.

(** ** The keys of a wrapper's configuration *)

(** X26.  The dictionary [Bidirectional.getConfig] returns has exactly
    the keys of the generic base configuration plus ['layer'] and
    ['mergeMode'], and every generic field appears in it with its value
    unchanged. *)
Theorem Bidirectional_getConfig_keys (this : Bidirectional) (l : Layer) :
  layer (wrapper this) = Some l ->
  exists config,
    Bidirectional_getConfig this = (this, Ok config)
    /\ (forall key,
          is_Some (config !! key)
          <-> key = "layer" \/ key = "mergeMode"
              \/ is_Some (baseConfig (wrapper this) !! key))
    /\ (forall key v,
          baseConfig (wrapper this) !! key = Some v -> config !! key = Some v).
Proof.
  intros Hl. eexists. split; [by apply Bidirectional_getConfig_run |].
  split.
  - intros key. rewrite !Object_assign_lookup.
    destruct (baseConfig (wrapper this) !! key) as [v|] eqn:Hbase.
    + split; [intros _; right; right; eauto | eauto].
    + destruct (decide (key = "layer")) as [-> | Hlayer].
      { rewrite lookup_singleton_eq. split; eauto. }
      rewrite (lookup_singleton_ne "layer" key) by done.
      destruct (decide (key = "mergeMode")) as [-> | Hmode].
      { rewrite lookup_singleton_eq. split; eauto. }
      rewrite (lookup_singleton_ne "mergeMode" key) by done.
      split; [intros [? ?]; discriminate |].
      intros [? | [? | [? ?]]]; done.
  - intros key v Hbase. rewrite !Object_assign_lookup. by rewrite Hbase.
Qed.

Lemma Bidirectional_getConfig_keys_witness :
  exists config,
    Bidirectional_getConfig demo_bidirectional = (demo_bidirectional, Ok config)
    /\ is_Some (config !! "layer") /\ is_Some (config !! "mergeMode")
    /\ config !! "name" = None.
Proof.
  destruct (Bidirectional_getConfig_keys demo_bidirectional demo_rnn)
    as (config & Hrun & Hkeys & _); [reflexivity |].
  exists config. split; [exact Hrun |].
  split; [apply Hkeys; by left |].
  split; [apply Hkeys; right; by left |].
  destruct (config !! "name") as [v|] eqn:Hname; [| reflexivity].
  assert (Hsome : is_Some (config !! "name")) by (rewrite Hname; eauto).
  apply Hkeys in Hsome as [? | [? | [? Hbase]]]; discriminate.
Defined.

(** ** [computeOutputShape] and [build] of TimeDistributed on rank 2 *)

(** X27.  [computeOutputShape] does not check the rank: on a shape
    [b; t] of rank 2, which [build] refuses, it asks the wrapped layer
    for the output shape of [b] alone and puts [t] at position 1 of the
    answer. *)
Theorem TimeDistributed_computeOutputShape_rank_2 (env : Env)
    (this : TimeDistributed) (l : Layer) (arg : ShapeArg) (b t : Dim)
    (childOutputShape : Shape) :
  getExactlyOneShape env arg = Ok [b; t] ->
  layer this = Some l ->
  layer_computeOutputShape env l [b] = Ok childOutputShape ->
  TimeDistributed_computeOutputShape env arg this
    = (this, Ok (js_index childOutputShape 0 :: t :: drop 1 childOutputShape))
  /\ exists msg, TimeDistributed_build env arg this = (this, Err (ValueError msg)).
Proof.
  intros Hone Hl Hchild. split.
  - unfold TimeDistributed_computeOutputShape.
    rewrite (bind_Ok _ _ this this [b; t]) by (unfold lift; by rewrite Hone).
    rewrite (bind_Ok _ _ this this l) by (by apply on_layer_get).
    simpl drop. simpl app at 1. change (js_index [b; t] 0) with b.
    rewrite (bind_Ok _ _ this this childOutputShape)
      by (unfold lift; by rewrite Hchild).
    reflexivity.
  - eexists. unfold TimeDistributed_build.
    rewrite (bind_Ok _ _ this this [b; t]) by (unfold lift; by rewrite Hone).
    rewrite bool_decide_eq_true_2 by (simpl; lia). reflexivity.
Qed.

Lemma TimeDistributed_computeOutputShape_rank_2_witness :
  snd (TimeDistributed_computeOutputShape demo_env (OneShape [DNum 2; DNum 3])
         demo_timeDistributed)
  = Ok [DNum 8; DNum 3].
Proof.
  destruct (TimeDistributed_computeOutputShape_rank_2 demo_env
              demo_timeDistributed demo_rnn (OneShape [DNum 2; DNum 3])
              (DNum 2) (DNum 3) [DNum 8])
    as [Hrun _]; [reflexivity .. |].
  rewrite Hrun. reflexivity.
Defined.
